(** * Expression Converter & Evaluator: a shallow embedding of [script.js]

    The development follows the class [ExpressionConverter]:
    [validateExpression], [infixToPostfix], [infixToPrefix] with its helper
    [infixToPostfixForPrefix], [evaluatePostfix], [evaluatePrefix] and
    [performOperation].

    Conventions.
    - A JavaScript string is a Rocq [string]; a character is one code unit
      in the range 0..255.
    - A JavaScript number is an IEEE 754 binary64 value, here the primitive
      type [float].
    - [throw new Error(msg)] is the constructor [Throw] of [result]; each
      message of the source is one constructor of [error].
    - An array used as a stack ([push]/[pop] at the end) is a list whose
      head is the top of the stack; the [output] array is a list in array
      order.
    - The step trace [this.steps] is write-only for the functions modelled
      here and is left out. *)

From Stdlib Require Import ZArith Floats String Ascii List Bool Lia.
Import ListNotations.

Local Open Scope string_scope.
Local Open Scope list_scope.

(** ** Errors and results *)

(** One constructor per [throw new Error(...)] message of the source:
    - [InvalidCharacter]: 'Invalid characters in expression. ...'
    - [UnmatchedClosingParen]: 'Unmatched closing parenthesis'
    - [UnmatchedOpeningParen]: 'Unmatched opening parenthesis'
    - [ConsecutiveOperators]: 'Consecutive operators are not allowed'
    - [InvalidBoundary]: 'Expression cannot start or end with +, *, or /'
    - [EmptyParens]: 'Empty parentheses are not allowed'
    - [InsufficientOperands]: 'Invalid postfix/prefix expression: insufficient operands'
    - [UnboundVariable v]: 'Cannot evaluate expression with variables. Variable v ...'
    - [MalformedExpression]: 'Invalid postfix/prefix expression: incorrect number of operators'
    - [DivisionByZero]: 'Division by zero'
    - [UnknownOperator op]: 'Unknown operator: op' *)
Inductive error : Type :=
| InvalidCharacter
| UnmatchedClosingParen
| UnmatchedOpeningParen
| ConsecutiveOperators
| InvalidBoundary
| EmptyParens
| InsufficientOperands
| UnboundVariable (name : string)
| MalformedExpression
| DivisionByZero
| UnknownOperator (op : string).

Inductive result (A : Type) : Type :=
| Ok (a : A)
| Throw (e : error).

Arguments Ok {A} a.
Arguments Throw {A} e.

Definition bind {A B : Type} (r : result A) (k : A -> result B) : result B :=
  match r with
  | Ok a => k a
  | Throw e => Throw e
  end.

Notation "x <- r ;; k" := (bind r (fun x => k))
  (at level 61, r at next level, right associativity).

(** [if (cond) throw e; k] *)
Definition throwIf {A : Type} (cond : bool) (e : error) (k : result A) : result A :=
  if cond then Throw e else k.

(** ** Character classes used by the regular expressions of the source *)

Module Char.

Definition code (c : ascii) : N := N_of_ascii c.

Definition between (lo hi : N) (c : ascii) : bool :=
  (N.leb lo (code c) && N.leb (code c) hi)%bool.

(** [[0-9]] *)
Definition isDigit : ascii -> bool := between 48 57.

(** [[a-zA-Z]] *)
Definition isLetter (c : ascii) : bool :=
  (between 97 122 c || between 65 90 c)%bool.

(** [[+\-*/]] *)
Definition isArith (c : ascii) : bool :=
  match c with
  | "+"%char | "-"%char | "*"%char | "/"%char => true
  | _ => false
  end.

(** [[+*/]] *)
Definition isArithNoMinus (c : ascii) : bool :=
  match c with
  | "+"%char | "*"%char | "/"%char => true
  | _ => false
  end.

(** [[a-zA-Z0-9+\-*/().]] *)
Definition isValid (c : ascii) : bool :=
  (isLetter c || isDigit c || isArith c
   || Ascii.eqb c "(" || Ascii.eqb c ")" || Ascii.eqb c ".")%bool.

End Char.

(** ** Regular-expression tests on whole strings *)

Module Re.

Fixpoint all (p : ascii -> bool) (s : string) : bool :=
  match s with
  | EmptyString => true
  | String c r => (p c && all p r)%bool
  end.

(** [/^[cls]+$/.test(s)]: [s] is not empty and every character is in the class. *)
Definition plus (p : ascii -> bool) (s : string) : bool :=
  match s with
  | EmptyString => false
  | String _ _ => all p s
  end.

(** [/^[cls]/.test(s)] *)
Definition startsWith (p : ascii -> bool) (s : string) : bool :=
  match s with
  | EmptyString => false
  | String c _ => p c
  end.

(** [/[cls]$/.test(s)] *)
Fixpoint endsWith (p : ascii -> bool) (s : string) : bool :=
  match s with
  | EmptyString => false
  | String c EmptyString => p c
  | String _ r => endsWith p r
  end.

(** [/[cls1][cls2]/.test(s)]: two adjacent characters, the first in
    [p], the second in [q].  With [p = q] this is [/[cls]{2,}/]. *)
Fixpoint adjacent (p q : ascii -> bool) (s : string) : bool :=
  match s with
  | EmptyString => false
  | String a r =>
      match r with
      | EmptyString => false
      | String b _ => ((p a && q b) || adjacent p q r)%bool
      end
  end.

End Re.

(** ** [validateExpression] *)

(** The loop [for (const char of expression)] of the balance check; the
    running [balance] is threaded through. *)
Fixpoint balanceLoop (expression : string) (balance : Z) : result Z :=
  match expression with
  | EmptyString => Ok balance
  | String char rest =>
      let balance :=
        if Ascii.eqb char "(" then (balance + 1)%Z
        else if Ascii.eqb char ")" then (balance - 1)%Z
        else balance in
      throwIf (balance <? 0)%Z UnmatchedClosingParen
        (balanceLoop rest balance)
  end.

Definition validChars (expression : string) : bool :=
  Re.plus Char.isValid expression.

Definition consecutiveOperators (expression : string) : bool :=
  Re.adjacent Char.isArith Char.isArith expression.

Definition badBoundary (expression : string) : bool :=
  (Re.endsWith Char.isArithNoMinus expression
   || Re.startsWith Char.isArithNoMinus expression)%bool.

Definition emptyParens (expression : string) : bool :=
  Re.adjacent (Ascii.eqb "(") (Ascii.eqb ")") expression.

Definition validateExpression (expression : string) : result unit :=
  throwIf (negb (validChars expression)) InvalidCharacter
    (balance <- balanceLoop expression 0%Z ;;
     throwIf (negb (balance =? 0)%Z) UnmatchedOpeningParen
       (throwIf (consecutiveOperators expression) ConsecutiveOperators
          (throwIf (badBoundary expression) InvalidBoundary
             (throwIf (emptyParens expression) EmptyParens
                (Ok tt))))).

(** ** Built-in string operations of JavaScript used by the source *)

Module JS.

(** [s.split(c)] for a one-character separator: never the empty array,
    [''.split(' ')] is [['']] and adjacent separators give empty pieces. *)
Fixpoint split (sep : ascii) (s : string) : list string :=
  match s with
  | EmptyString => [EmptyString]
  | String c r =>
      if Ascii.eqb c sep then EmptyString :: split sep r
      else match split sep r with
           | piece :: pieces => String c piece :: pieces
           | [] => [String c EmptyString]
           end
  end.

(** [a.join(sep)] *)
Fixpoint join (sep : string) (a : list string) : string :=
  match a with
  | [] => EmptyString
  | [x] => x
  | x :: r => x ++ sep ++ join sep r
  end.

(** [s.split('').reverse().join('')] *)
Definition reverseChars (s : string) : string :=
  string_of_list_ascii (rev (list_ascii_of_string s)).

(** [s.replace(/pat/g, rep)] for a literal, non-empty pattern: the matches
    are found left to right and do not overlap.  [skip] counts the
    characters of the current match still to be dropped. *)
Fixpoint replaceFrom (pat rep : string) (skip : nat) (s : string) : string :=
  match s with
  | EmptyString => EmptyString
  | String c r =>
      match skip with
      | S k => replaceFrom pat rep k r
      | O =>
          if String.prefix pat s
          then rep ++ replaceFrom pat rep (String.length pat - 1) r
          else String c (replaceFrom pat rep 0 r)
      end
  end.

Definition replaceAll (pat rep : string) (s : string) : string :=
  replaceFrom pat rep 0 s.

(** White space and line terminators skipped by [parseFloat]
    (TAB, LF, VT, FF, CR, SP, NBSP in the modelled range). *)
Definition isWhiteSpace (c : ascii) : bool :=
  let n := Char.code c in
  (N.eqb n 9 || N.eqb n 10 || N.eqb n 11 || N.eqb n 12 || N.eqb n 13
   || N.eqb n 32 || N.eqb n 160)%bool.

Fixpoint trimStart (s : string) : string :=
  match s with
  | EmptyString => EmptyString
  | String c r => if isWhiteSpace c then trimStart r else s
  end.

Definition digitValue (c : ascii) : Z := Z.of_N (Char.code c) - 48.

(** Reads the longest run of decimal digits at the front of [s]:
    returns the value of [acc] followed by these digits, their number
    added to [n], and the rest of the string. *)
Fixpoint readDigits (s : string) (acc : Z) (n : Z) : Z * Z * string :=
  match s with
  | EmptyString => (acc, n, s)
  | String c r =>
      if Char.isDigit c then readDigits r (10 * acc + digitValue c)%Z (n + 1)%Z
      else (acc, n, s)
  end.

(** An optional sign: [true] for '-'. *)
Definition readSign (s : string) : bool * string :=
  match s with
  | String "+"%char r => (false, r)
  | String "-"%char r => (true, r)
  | _ => (false, s)
  end.

(** The binary64 value nearest to [(-1)^neg * m * 10^e] (ties to even). *)
Definition roundDecimal (neg : bool) (m : Z) (e : Z) : float :=
  match m with
  | Zpos p =>
      if (0 <=? e)%Z
      then SF2Prim (binary_normalize 53 1024
                      (if neg then Zneg p * 10 ^ e else Zpos p * 10 ^ e)%Z 0 false)
      else SF2Prim (SFdiv 53 1024
                      (S754_finite neg p 0)
                      (S754_finite false (Z.to_pos (10 ^ (- e))) 0))
  | _ => if neg then neg_zero else PrimFloat.zero
  end.

(** The optional exponent part [e], [e+] or [e-] followed by digits; an
    incomplete exponent is not part of the literal. *)
Definition readExponent (s : string) : Z :=
  match s with
  | String c r =>
      if (Ascii.eqb c "e" || Ascii.eqb c "E")%bool then
        let '(eneg, r') := readSign r in
        let '(ev, en, _) := readDigits r' 0 0 in
        if (en =? 0)%Z then 0%Z else if eneg then (- ev)%Z else ev
      else 0%Z
  | EmptyString => 0%Z
  end.

(** [parseFloat(s)]: the value of the longest prefix of [s], after leading
    white space, that is a decimal literal ([Infinity], digits with an
    optional fraction and exponent, optionally signed); [NaN] if there is
    none. *)
Definition parseFloat (s : string) : float :=
  let '(neg, s1) := readSign (trimStart s) in
  if String.prefix "Infinity" s1 then (if neg then neg_infinity else infinity)
  else
    let '(m1, n1, r1) := readDigits s1 0 0 in
    let '(m2, n2, r2) :=
      match r1 with
      | String "."%char r => readDigits r m1 0
      | _ => (m1, 0%Z, r1)
      end in
    if (n1 + n2 =? 0)%Z then nan
    else roundDecimal neg m2 (readExponent r2 - n2).

(** [isNaN(x)] for a number [x]. *)
Definition isNaN (x : float) : bool := is_nan x.

(** The property names every object inherits from [Object.prototype];
    the [in] operator of the source sees them. *)
Definition objectPrototypeKeys : list string :=
  [ "constructor"; "__defineGetter__"; "__defineSetter__"; "hasOwnProperty";
    "__lookupGetter__"; "__lookupSetter__"; "isPrototypeOf";
    "propertyIsEnumerable"; "toString"; "valueOf"; "__proto__";
    "toLocaleString" ].

End JS.

(** ** The operator table and the character predicates *)

Record operatorInfo : Type :=
  { precedence : Z; associativity : string }.

(** The own properties of [this.operators]. *)
Definition operators (key : string) : option operatorInfo :=
  if String.eqb key "+" then Some {| precedence := 1; associativity := "left" |}
  else if String.eqb key "-" then Some {| precedence := 1; associativity := "left" |}
  else if String.eqb key "*" then Some {| precedence := 2; associativity := "left" |}
  else if String.eqb key "/" then Some {| precedence := 2; associativity := "left" |}
  else None.

Definition inList (key : string) (keys : list string) : bool :=
  existsb (String.eqb key) keys.

(** [char in this.operators]: an own property or an inherited one. *)
Definition isOperator (char : string) : bool :=
  match operators char with
  | Some _ => true
  | None => inList char JS.objectPrototypeKeys
  end.

(** [/[0-9a-zA-Z]/.test(char)] for a one-character string. *)
Definition isOperand (char : ascii) : bool :=
  (Char.isDigit char || Char.isLetter char)%bool.

(** [this.operators[op]?.precedence || 0]: inherited properties have no
    [precedence] field. *)
Definition getPrecedence (op : string) : Z :=
  match operators op with
  | Some info => precedence info
  | None => 0%Z
  end.

(** [this.operators[op]?.associativity === 'left'] *)
Definition isLeftAssociative (op : string) : bool :=
  match operators op with
  | Some info => String.eqb (associativity info) "left"
  | None => false
  end.

(** The one-character string [infix[i]]. *)
Definition str (c : ascii) : string := String c EmptyString.

(** ** Infix to postfix *)

(** The local variables of the conversion loop: the index [i], the
    [output] array and the [operatorStack] (top first). *)
Record convState : Type :=
  { idx : nat; output : list string; operatorStack : list string }.

(** [while (i < infix.length && this.isOperand(infix[i])) { operand += infix[i]; i++; }]
    [fuel] bounds the number of iterations. *)
Fixpoint readOperand (fuel : nat) (infix : string) (i : nat) (operand : string)
  : nat * string :=
  match fuel with
  | O => (i, operand)
  | S fuel' =>
      match String.get i infix with
      | Some c =>
          if isOperand c
          then readOperand fuel' infix (S i) (operand ++ str c)
          else (i, operand)
      | None => (i, operand)
      end
  end.

(** [while (operatorStack.length > 0 && top !== '(') output.push(operatorStack.pop())] *)
Fixpoint popToParen (output operatorStack : list string)
  : list string * list string :=
  match operatorStack with
  | [] => (output, [])
  | top :: below =>
      if negb (String.eqb top "(")
      then popToParen (output ++ [top]) below
      else (output, operatorStack)
  end.

(** [if (operatorStack.length > 0) operatorStack.pop()] *)
Definition dropTop (operatorStack : list string) : list string :=
  match operatorStack with
  | [] => []
  | _ :: below => below
  end.

(** The loop condition on the stack top in the operator branch of
    [infixToPostfix]. *)
Definition popsPostfix (top char : string) : bool :=
  ((getPrecedence top >? getPrecedence char)%Z
   || ((getPrecedence top =? getPrecedence char)%Z && isLeftAssociative char))%bool.

(** The same condition in [infixToPostfixForPrefix]. *)
Definition popsPrefix (top char : string) : bool :=
  (getPrecedence top >=? getPrecedence char)%Z.

(** [while (operatorStack.length > 0 && top !== '(' && pops(top, char)) output.push(operatorStack.pop())] *)
Fixpoint popWhile (pops : string -> string -> bool) (char : string)
    (output operatorStack : list string) : list string * list string :=
  match operatorStack with
  | [] => (output, [])
  | top :: below =>
      if (negb (String.eqb top "(") && pops top char)%bool
      then popWhile pops char (output ++ [top]) below
      else (output, operatorStack)
  end.

(** One iteration of the [for] loop, with its [i++], on the character
    [char = infix[i]].  The two conversions of the source have the same
    body up to the condition [pops]. *)
Definition convBody (pops : string -> string -> bool) (infix : string)
    (char : ascii) (st : convState) : convState :=
  let i := idx st in
  if isOperand char then
    let '(i', operand) := readOperand (String.length infix) infix i EmptyString in
    {| idx := S (i' - 1);
       output := output st ++ [operand];
       operatorStack := operatorStack st |}
  else if Ascii.eqb char "(" then
    {| idx := S i;
       output := output st;
       operatorStack := str char :: operatorStack st |}
  else if Ascii.eqb char ")" then
    let '(out, stack) := popToParen (output st) (operatorStack st) in
    {| idx := S i; output := out; operatorStack := dropTop stack |}
  else if isOperator (str char) then
    let '(out, stack) := popWhile pops (str char) (output st) (operatorStack st) in
    {| idx := S i; output := out; operatorStack := str char :: stack |}
  else
    {| idx := S i; output := output st; operatorStack := operatorStack st |}.

(** [for (let i = 0; i < infix.length; i++) { ... }] *)
Fixpoint convLoop (fuel : nat) (pops : string -> string -> bool)
    (infix : string) (st : convState) : convState :=
  match fuel with
  | O => st
  | S fuel' =>
      match String.get (idx st) infix with
      | Some char => convLoop fuel' pops infix (convBody pops infix char st)
      | None => st
      end
  end.

(** [while (operatorStack.length > 0) output.push(operatorStack.pop())] *)
Fixpoint popRemaining (output operatorStack : list string) : list string :=
  match operatorStack with
  | [] => output
  | op :: below => popRemaining (output ++ [op]) below
  end.

Definition convInit : convState :=
  {| idx := 0; output := []; operatorStack := [] |}.

Definition convert (pops : string -> string -> bool) (infix : string) : string :=
  let st := convLoop (String.length infix) pops infix convInit in
  JS.join " " (popRemaining (output st) (operatorStack st)).

Definition infixToPostfix (infix : string) : string :=
  convert popsPostfix infix.

Definition infixToPostfixForPrefix (infix : string) : string :=
  convert popsPrefix infix.

(** ** Infix to prefix *)

(** [reversed.replace(/\(/g, 'TEMP').replace(/\)/g, '(').replace(/TEMP/g, ')')] *)
Definition swapParens (reversed : string) : string :=
  JS.replaceAll "TEMP" ")"
    (JS.replaceAll ")" "("
       (JS.replaceAll "(" "TEMP" reversed)).

Definition infixToPrefix (infix : string) : string :=
  let reversed := JS.reverseChars infix in
  let reversed := swapParens reversed in
  let postfix := infixToPostfixForPrefix reversed in
  JS.join " " (rev (JS.split " " postfix)).

(** ** Evaluation *)

Definition performOperation (operand1 operand2 : float) (operator : string)
  : result float :=
  if String.eqb operator "+" then Ok (operand1 + operand2)%float
  else if String.eqb operator "-" then Ok (operand1 - operand2)%float
  else if String.eqb operator "*" then Ok (operand1 * operand2)%float
  else if String.eqb operator "/" then
    throwIf (operand2 =? 0)%float DivisionByZero
      (Ok (operand1 / operand2)%float)
  else Throw (UnknownOperator operator).

(** [/^[a-zA-Z]+$/.test(token)] *)
Definition lettersOnly (token : string) : bool :=
  Re.plus Char.isLetter token.

(** The branches of the loop body that do not depend on the pop order:
    a token that is not an operator. *)
Definition operandToken (stack : list float) (token : string)
  : result (list float) :=
  if negb (JS.isNaN (JS.parseFloat token)) then Ok (JS.parseFloat token :: stack)
  else if lettersOnly token then Throw (UnboundVariable token)
  else Ok stack.

(** The body of the loop of [evaluatePostfix]: the first value popped is
    [operand2]. *)
Definition postfixBody (stack : list float) (token : string)
  : result (list float) :=
  if isOperator token then
    match stack with
    | operand2 :: operand1 :: below =>
        value <- performOperation operand1 operand2 token ;;
        Ok (value :: below)
    | _ => Throw InsufficientOperands
    end
  else operandToken stack token.

(** The body of the loop of [evaluatePrefix]: the first value popped is
    [operand1]. *)
Definition prefixBody (stack : list float) (token : string)
  : result (list float) :=
  if isOperator token then
    match stack with
    | operand1 :: operand2 :: below =>
        value <- performOperation operand1 operand2 token ;;
        Ok (value :: below)
    | _ => Throw InsufficientOperands
    end
  else operandToken stack token.

(** The tokens that fall through every branch of the loop body: not an
    operator, [parseFloat] gives [NaN], and not made of letters only. *)
Definition skipped (token : string) : bool :=
  (negb (isOperator token) && JS.isNaN (JS.parseFloat token)
   && negb (lettersOnly token))%bool.

(** [for (const token of tokens) { body }] with the [stack] threaded
    through; a [throw] ends the loop. *)
Fixpoint forTokens (body : list float -> string -> result (list float))
    (tokens : list string) (stack : list float) : result (list float) :=
  match tokens with
  | [] => Ok stack
  | token :: rest =>
      stack' <- body stack token ;;
      forTokens body rest stack'
  end.

(** [if (stack.length !== 1) throw ...; return stack[0]] *)
Definition single (stack : list float) : result float :=
  match stack with
  | [value] => Ok value
  | _ => Throw MalformedExpression
  end.

Definition evaluatePostfix (postfix : string) : result float :=
  let tokens := JS.split " " postfix in
  stack <- forTokens postfixBody tokens [] ;;
  single stack.

Definition evaluatePrefix (prefix : string) : result float :=
  let tokens := rev (JS.split " " prefix) in
  stack <- forTokens prefixBody tokens [] ;;
  single stack.

(** ** Reading the input field and the convert button *)

(** [s.trimEnd()] *)
Fixpoint trimEnd (s : string) : string :=
  match s with
  | EmptyString => EmptyString
  | String c r =>
      match trimEnd r with
      | EmptyString => if JS.isWhiteSpace c then EmptyString else str c
      | r' => String c r'
      end
  end.

(** [s.trim()] *)
Definition trim (s : string) : string := trimEnd (JS.trimStart s).

(** [s.replace(/\s+/g, '')]: every maximal run of white space is replaced
    by the empty string. *)
Fixpoint removeSpaces (s : string) : string :=
  match s with
  | EmptyString => EmptyString
  | String c r =>
      if JS.isWhiteSpace c then removeSpaces r else String c (removeSpaces r)
  end.

(** [getInputValue], as a function of the [value] of the input field:
    [value.trim().replace(/\s+/g, '')]. *)
Definition getInputValue (value : string) : string :=
  removeSpaces (trim value).

(** What [handleConvert] hands to the page: one call of [showError],
    with the fixed text 'Please enter an infix expression' or with the
    message of a caught error, or the two calls of [displayResult] with
    the postfix and the prefix form. *)
Inductive convertOutcome : Type :=
| AskForInput
| ShowError (e : error)
| ShowResults (postfix prefix : string).

(** [handleConvert], as a function of the [value] of the input field.
    The [try]/[catch] turns an error of [validateExpression] into
    [showError(error.message)]; the conversions do not throw. *)
Definition handleConvert (value : string) : convertOutcome :=
  let infix := getInputValue value in
  if String.eqb (trim infix) EmptyString
  then AskForInput
  else
    match validateExpression infix with
    | Throw e => ShowError e
    | Ok _ =>
        let postfix := infixToPostfix infix in
        let prefix := infixToPrefix infix in
        ShowResults postfix prefix
    end.

(** ** Notions used to state the properties *)

(** The characters of a string, and the tokens of a conversion before
    they are joined. *)
Definition chars (s : string) : list ascii := list_ascii_of_string s.

Definition convertTokens (pops : string -> string -> bool) (infix : string)
  : list string :=
  let st := convLoop (String.length infix) pops infix convInit in
  popRemaining (output st) (operatorStack st).

(** The number of '(' minus the number of ')' in a list of characters. *)
Fixpoint parenBalance (cs : list ascii) : Z :=
  match cs with
  | [] => 0
  | c :: r =>
      ((if Ascii.eqb c "(" then 1 else if Ascii.eqb c ")" then -1 else 0)
       + parenBalance r)%Z
  end.

(** The number of tokens equal to [t]. *)
Definition countToken (t : string) (tokens : list string) : nat :=
  List.length (filter (String.eqb t) tokens).

(** The number of characters equal to [c]. *)
Definition countChar (c : ascii) (cs : list ascii) : nat :=
  List.length (filter (Ascii.eqb c) cs).


(** The character-wise exchange of '(' and ')'. *)
Definition swapChar (c : ascii) : ascii :=
  if Ascii.eqb c "(" then ")"%char
  else if Ascii.eqb c ")" then "("%char
  else c.

Fixpoint mapChars (f : ascii -> ascii) (s : string) : string :=
  match s with
  | EmptyString => EmptyString
  | String c r => String (f c) (mapChars f r)
  end.

(** [s] contains the substring "TEMP". *)
Fixpoint containsTEMP (s : string) : bool :=
  match s with
  | EmptyString => false
  | String _ r => (String.prefix "TEMP" s || containsTEMP r)%bool
  end.

(** A token the evaluators push as a number. *)
Definition isNumberToken (token : string) : bool :=
  (negb (isOperator token) && negb (JS.isNaN (JS.parseFloat token)))%bool.

(** The number of tokens that satisfy [p]. *)
Definition countIf (p : string -> bool) (tokens : list string) : nat :=
  List.length (filter p tokens).

(** No character of [s] is white space. *)
Definition noSpace (s : string) : bool :=
  Re.all (fun c => negb (JS.isWhiteSpace c)) s.

(** A token other than "(". *)
Definition notOpen (t : string) : bool := negb (String.eqb t "(").

(** A non-empty run of operand characters. *)
Definition isOperandToken (t : string) : bool := Re.plus isOperand t.

(** The tokens a conversion can produce: an operand, "(" or one of the
    four operators. *)
Definition tokenShape (t : string) : bool :=
  (isOperandToken t || inList t ["("; "+"; "-"; "*"; "/"])%bool.

Definition isParen (c : ascii) : bool :=
  (Ascii.eqb c "(" || Ascii.eqb c ")")%bool.

(** No character of [s] is a parenthesis. *)
Definition parenFree (s : string) : bool :=
  Re.all (fun c => negb (isParen c)) s.

(** The first two replacements of [swapParens]. *)
Definition pass12 (s : string) : string :=
  JS.replaceAll ")" "(" (JS.replaceAll "(" "TEMP" s).

(** A character that is neither 'T' nor a parenthesis. *)
Definition plain (c : ascii) : bool :=
  negb (Ascii.eqb c "T" || Ascii.eqb c "(" || Ascii.eqb c ")")%bool.

(** The error an inherited property name raises as a token: it passes
    the operator test, so it needs two operands, and then no case of
    [performOperation] takes it. *)
Definition inheritedNameError (token : string) (stack : list float) : error :=
  match stack with
  | _ :: _ :: _ => UnknownOperator token
  | _ => InsufficientOperands
  end.

(** [z] is empty or starts with 'T'. *)
Definition startsWithT (z : string) : bool :=
  match z with
  | EmptyString => true
  | String c _ => Ascii.eqb c "T"
  end.

(** The characters after an operand do not go on with an operand
    character. *)
Definition stopsOperand (post : list ascii) : bool :=
  match post with
  | [] => true
  | c :: _ => negb (isOperand c)
  end.

(** Expression trees, as a reference for the two evaluators: a leaf is an
    operand token, a node an operator token with its left and right
    operand. *)
Module Tree.

Inductive expr : Type :=
| Leaf (token : string)
| Node (operator : string) (lhs rhs : expr).

(** The postfix and the prefix token sequence of a tree. *)
Fixpoint postorder (e : expr) : list string :=
  match e with
  | Leaf token => [token]
  | Node operator lhs rhs => postorder lhs ++ postorder rhs ++ [operator]
  end.

Fixpoint preorder (e : expr) : list string :=
  match e with
  | Leaf token => [token]
  | Node operator lhs rhs => operator :: preorder lhs ++ preorder rhs
  end.

(** The value of a tree, the left operand first. *)
Fixpoint value (e : expr) : result float :=
  match e with
  | Leaf token => Ok (JS.parseFloat token)
  | Node operator lhs rhs =>
      a <- value lhs ;;
      b <- value rhs ;;
      performOperation a b operator
  end.

(** The value of a tree, the right operand first: the same number, but
    of two errors the one in the right operand is reported. *)
Fixpoint valueRightFirst (e : expr) : result float :=
  match e with
  | Leaf token => Ok (JS.parseFloat token)
  | Node operator lhs rhs =>
      b <- valueRightFirst rhs ;;
      a <- valueRightFirst lhs ;;
      performOperation a b operator
  end.

Definition hasSpace (token : string) : bool :=
  existsb (Ascii.eqb " ") (chars token).

(** The leaves are tokens the evaluators read as numbers, the nodes
    tokens they read as operators, and no token contains a space. *)
Fixpoint wellFormed (e : expr) : bool :=
  match e with
  | Leaf token =>
      (negb (isOperator token) && negb (JS.isNaN (JS.parseFloat token))
       && negb (hasSpace token))%bool
  | Node operator lhs rhs =>
      (isOperator operator && negb (hasSpace operator)
       && wellFormed lhs && wellFormed rhs)%bool
  end.

(** The fully parenthesised infix form of a tree: every node is
    written "(" left operator right ")". *)
Fixpoint render (e : expr) : string :=
  match e with
  | Leaf token => token
  | Node operator lhs rhs =>
      "(" ++ render lhs ++ operator ++ render rhs ++ ")"
  end.

(** The trees [render] writes as an expression of the source: the leaves
    are operands and the nodes carry one of the four operators. *)
Fixpoint renderable (e : expr) : bool :=
  match e with
  | Leaf token => isOperandToken token
  | Node operator lhs rhs =>
      (inList operator ["+"; "-"; "*"; "/"]
       && renderable lhs && renderable rhs)%bool
  end.

(** The tree with every leaf spelled backwards. *)
Fixpoint reverseLeaves (e : expr) : expr :=
  match e with
  | Leaf token => Leaf (JS.reverseChars token)
  | Node operator lhs rhs => Node operator (reverseLeaves lhs) (reverseLeaves rhs)
  end.

(** The tree with the operands of every node exchanged and every leaf
    spelled backwards. *)
Fixpoint mirror (e : expr) : expr :=
  match e with
  | Leaf token => Leaf (JS.reverseChars token)
  | Node operator lhs rhs => Node operator (mirror rhs) (mirror lhs)
  end.

End Tree.

(** * Properties *)

(** ** The loops run to their end *)

Lemma get_none_length (s : string) (i : nat) :
  String.get i s = None <-> String.length s <= i.
Proof.
  revert i; induction s as [|c s IH]; intros [|i]; simpl.
  - split; [lia | reflexivity].
  - split; [lia | reflexivity].
  - split; [discriminate | lia].
  - rewrite IH; lia.
Qed.

(** The inner loop of the operand branch never moves backwards, and with
    [fuel] at least the number of characters left it stops on its own
    condition: at the end of the string or on a character that is not an
    operand. *)
Lemma readOperand_stops (infix : string) :
  forall fuel i operand,
    String.length infix <= i + fuel ->
    let '(i', _) := readOperand fuel infix i operand in
    i <= i' /\
    match String.get i' infix with
    | Some c => isOperand c = false
    | None => True
    end.
Proof.
  induction fuel as [|fuel IH]; intros i operand Hlen; simpl.
  - split; [lia|].
    assert (H : String.get i infix = None) by (apply get_none_length; lia).
    now rewrite H.
  - destruct (String.get i infix) as [c|] eqn:Hget.
    + destruct (isOperand c) eqn:Hop.
      * specialize (IH (S i) (operand ++ str c)%string ltac:(lia)).
        destruct (readOperand fuel infix (S i) (operand ++ str c)) as [i' s'].
        destruct IH as [Hle Hstop]; split; [lia | exact Hstop].
      * split; [lia|]. now rewrite Hget, Hop.
    + split; [lia|]. now rewrite Hget.
Qed.

(** In particular the call made by the conversion loop, with the length
    of the input as [fuel], is the whole [while] loop of the source. *)
Lemma readOperand_complete (infix : string) (i : nat) :
  match String.get (fst (readOperand (String.length infix) infix i EmptyString)) infix with
  | Some c => isOperand c = false
  | None => True
  end.
Proof.
  pose proof (readOperand_stops infix (String.length infix) i EmptyString
                ltac:(lia)) as H.
  destruct (readOperand (String.length infix) infix i EmptyString) as [i' s].
  exact (proj2 H).
Qed.

Lemma readOperand_le (infix : string) :
  forall fuel i operand, i <= fst (readOperand fuel infix i operand).
Proof.
  induction fuel as [|fuel IH]; intros i operand; simpl; [lia|].
  destruct (String.get i infix) as [c|]; simpl; [|lia].
  destruct (isOperand c); simpl; [|lia].
  specialize (IH (S i) (operand ++ str c)%string). lia.
Qed.

Lemma readOperand_advances (infix : string) (fuel i : nat) (c : ascii) :
  String.get i infix = Some c -> isOperand c = true ->
  i < fst (readOperand (S fuel) infix i EmptyString).
Proof.
  intros Hget Hop; simpl; rewrite Hget, Hop.
  pose proof (readOperand_le infix fuel (S i) (str c)). simpl in *. lia.
Qed.

(** Every iteration of the conversion loop moves the index forward. *)
Lemma convBody_advances pops (infix : string) (char : ascii) (st : convState) :
  String.get (idx st) infix = Some char ->
  idx st < idx (convBody pops infix char st).
Proof.
  intros Hget; unfold convBody.
  destruct (isOperand char) eqn:Hop.
  - assert (Hlen : String.length infix <> 0).
    { intros H0. assert (String.get (idx st) infix = None)
        by (apply get_none_length; lia). congruence. }
    destruct (String.length infix) as [|n] eqn:Hn; [congruence|].
    pose proof (readOperand_advances infix n (idx st) char Hget Hop) as Hadv.
    destruct (readOperand (S n) infix (idx st) EmptyString) as [i' operand].
    simpl in *; lia.
  - destruct (Ascii.eqb char "("); [simpl; lia|].
    destruct (Ascii.eqb char ")").
    + destruct (popToParen (output st) (operatorStack st)); simpl; lia.
    + destruct (isOperator (str char)); [|simpl; lia].
      destruct (popWhile pops (str char) (output st) (operatorStack st)); simpl; lia.
Qed.

(** With [fuel] the length of the input, the [for] loop of the conversion
    ends because its index has reached the end of the input. *)
Lemma convLoop_exits pops (infix : string) :
  forall fuel st,
    String.length infix <= idx st + fuel ->
    String.get (idx (convLoop fuel pops infix st)) infix = None.
Proof.
  induction fuel as [|fuel IH]; intros st Hlen; simpl.
  - apply get_none_length; lia.
  - destruct (String.get (idx st) infix) as [char|] eqn:Hget; [|exact Hget].
    apply IH. pose proof (convBody_advances pops infix char st Hget). lia.
Qed.

Lemma popRemaining_app (output operatorStack : list string) :
  popRemaining output operatorStack = output ++ operatorStack.
Proof.
  revert output; induction operatorStack as [|op below IH]; intros output; simpl.
  - now rewrite app_nil_r.
  - rewrite IH, <- app_assoc. reflexivity.
Qed.

(** ** Worked conversions and evaluations *)

(** C2: [infixToPostfix] and [evaluatePostfix] on the three sample
    expressions: "(2+3)*4" gives "2 3 + 4 *" and 20, "10+2*6" gives
    "10 2 6 * +" and 22, "2+3*4-5" gives "2 3 4 * + 5 -" and 9. *)
Theorem postfix_samples :
  infixToPostfix "(2+3)*4" = "2 3 + 4 *"%string /\
  evaluatePostfix "2 3 + 4 *" = Ok 20%float /\
  infixToPostfix "10+2*6" = "10 2 6 * +"%string /\
  evaluatePostfix "10 2 6 * +" = Ok 22%float /\
  infixToPostfix "2+3*4-5" = "2 3 4 * + 5 -"%string /\
  evaluatePostfix "2 3 4 * + 5 -" = Ok 9%float.
Proof. repeat split; vm_compute; reflexivity. Qed.

(** C3: [infixToPrefix] on "(2+3)*4" goes through the reversed input
    (the characters 4 * ) 3 + 2 ( in this order), the swapped parentheses
    "4*(3+2)", the conversion with the [>=] comparison "4 3 2 + *" and the
    reversed token sequence "* + 2 3 4"; [evaluatePrefix] of that is 20.
    The four stages are those of [infixToPrefix] on every input.  The
    comparison of the helper is [>=] on the precedences 1, 1, 2, 2 of
    + - * /: in its operator branch an operator on top of the stack is
    moved to the output when its precedence is equal ("+" under '-') or
    higher ("*" under '+') and stays when it is lower ("+" under '*'),
    as the helper shows on "c+b-a", "c*b+a" and "c+b*a". *)
Theorem prefix_sample :
  list_ascii_of_string (JS.reverseChars "(2+3)*4")
    = ["4"; "*"; ")"; "3"; "+"; "2"; "("]%char /\
  swapParens (JS.reverseChars "(2+3)*4") = "4*(3+2)"%string /\
  infixToPostfixForPrefix "4*(3+2)" = "4 3 2 + *"%string /\
  JS.join " " (rev (JS.split " " "4 3 2 + *")) = "* + 2 3 4"%string /\
  infixToPrefix "(2+3)*4" = "* + 2 3 4"%string /\
  (forall top char,
      popsPrefix top char = (getPrecedence top >=? getPrecedence char)%Z) /\
  evaluatePrefix "* + 2 3 4" = Ok 20%float /\
  (forall infix,
      infixToPrefix infix
      = JS.join " " (rev (JS.split " "
          (infixToPostfixForPrefix (swapParens (JS.reverseChars infix)))))) /\
  (getPrecedence "+" = 1 /\ getPrecedence "-" = 1 /\
   getPrecedence "*" = 2 /\ getPrecedence "/" = 2 /\ getPrecedence "(" = 0)%Z /\
  (forall char output top below,
      popWhile popsPrefix char output (top :: below)
      = if (negb (String.eqb top "(")
            && (getPrecedence top >=? getPrecedence char)%Z)%bool
        then popWhile popsPrefix char (output ++ [top]) below
        else (output, top :: below)) /\
  (forall infix st,
      convBody popsPrefix infix "-"
        {| idx := idx st; output := output st;
           operatorStack := "+"%string :: "("%string :: operatorStack st |}
      = {| idx := S (idx st); output := output st ++ ["+"%string];
           operatorStack := "-"%string :: "("%string :: operatorStack st |}) /\
  (forall infix st,
      convBody popsPrefix infix "+"
        {| idx := idx st; output := output st;
           operatorStack := "*"%string :: "("%string :: operatorStack st |}
      = {| idx := S (idx st); output := output st ++ ["*"%string];
           operatorStack := "+"%string :: "("%string :: operatorStack st |}) /\
  (forall infix st,
      convBody popsPrefix infix "*"
        {| idx := idx st; output := output st;
           operatorStack := "+"%string :: "("%string :: operatorStack st |}
      = {| idx := S (idx st); output := output st;
           operatorStack := "*"%string :: "+"%string :: "("%string :: operatorStack st |}) /\
  infixToPostfixForPrefix "c+b-a" = "c b + a -"%string /\
  infixToPostfixForPrefix "c*b+a" = "c b * a +"%string /\
  infixToPostfixForPrefix "c+b*a" = "c b a * +"%string /\
  infixToPrefix "a+b*c" = "+ a * b c"%string /\
  infixToPrefix "a*b+c" = "+ * a b c"%string /\
  infixToPrefix "a-b+c" = "- a + b c"%string.
Proof.
  do 7 (split; [vm_compute; reflexivity|]).
  split; [intros infix; reflexivity|].
  split; [repeat split; reflexivity|].
  split; [intros char output top below; reflexivity|].
  do 3 (split; [intros infix st; reflexivity|]).
  repeat split; vm_compute; reflexivity.
Qed.

(** C1 (the code departs from the claim): "2-3+4" passes the validation
    and has numeric operands only; its postfix form evaluates to
    (2-3)+4 = 3, the value under left associativity, but its prefix form
    is "- 2 + 3 4" and evaluates to 2-(3+4) = -5.  On "10+2*6" the prefix
    form carries the operand "01" and evaluates to 13 instead of 22. *)
Theorem prefix_disagrees_with_postfix :
  validateExpression "2-3+4" = Ok tt /\
  infixToPostfix "2-3+4" = "2 3 - 4 +"%string /\
  evaluatePostfix (infixToPostfix "2-3+4") = Ok ((2 - 3) + 4)%float /\
  evaluatePostfix (infixToPostfix "2-3+4") = Ok 3%float /\
  infixToPrefix "2-3+4" = "- 2 + 3 4"%string /\
  evaluatePrefix (infixToPrefix "2-3+4") = Ok (2 - (3 + 4))%float /\
  evaluatePrefix (infixToPrefix "2-3+4") = Ok (-5)%float /\
  validateExpression "10+2*6" = Ok tt /\
  evaluatePostfix (infixToPostfix "10+2*6") = Ok 22%float /\
  infixToPrefix "10+2*6" = "+ 01 * 2 6"%string /\
  evaluatePrefix (infixToPrefix "10+2*6") = Ok 13%float.
Proof. repeat split; vm_compute; reflexivity. Qed.

(** ** Parentheses in the conversion *)

(** When the stack holds no '(', the loop of the ')' branch moves the
    whole stack to the output. *)
Lemma popToParen_no_paren (output operatorStack : list string) :
  inList "(" operatorStack = false ->
  popToParen output operatorStack = (output ++ operatorStack, []).
Proof.
  revert output; induction operatorStack as [|top below IH];
    intros output Hno; simpl.
  - now rewrite app_nil_r.
  - change (inList "(" (top :: below))
      with (String.eqb "(" top || inList "(" below)%bool in Hno.
    apply orb_false_elim in Hno as [Htop Hbelow].
    rewrite String.eqb_sym in Htop. rewrite Htop; simpl.
    rewrite IH by exact Hbelow. now rewrite <- app_assoc.
Qed.

(** C6, as the code has it: when a ')' is read and the operator stack
    holds no '(', both conversions move every operator of the stack to the
    output, leave the stack empty and go on with the next character; no
    error is raised. *)
Theorem close_paren_without_open pops (infix : string) (st : convState) :
  inList "(" (operatorStack st) = false ->
  convBody pops infix ")" st =
    {| idx := S (idx st);
       output := output st ++ operatorStack st;
       operatorStack := [] |}.
Proof.
  intros Hno. unfold convBody.
  change (isOperand ")") with false; cbv iota.
  change (Ascii.eqb ")" "(") with false; cbv iota.
  change (Ascii.eqb ")" ")") with true; cbv iota.
  rewrite (popToParen_no_paren _ _ Hno). reflexivity.
Qed.

Lemma close_paren_without_open_witness :
  inList "(" ["+"%string] = false /\
  convBody popsPostfix "2+3)" ")"
    {| idx := 3; output := ["2"; "3"]%string; operatorStack := ["+"%string] |}
  = {| idx := 4; output := ["2"; "3"; "+"]%string; operatorStack := [] |}.
Proof.
  split; [reflexivity|].
  apply (close_paren_without_open popsPostfix "2+3)"
           {| idx := 3; output := ["2"; "3"]%string;
              operatorStack := ["+"%string] |}).
  reflexivity.
Defined.

(** C6, as the claim has it, fails on "2+3)": after three iterations the
    loop is at the ')' with only "+" on the stack, and the conversion
    still returns a postfix string. *)
Lemma unmatched_close_paren_returns :
  let st := convLoop 3 popsPostfix "2+3)" convInit in
  String.get (idx st) "2+3)" = Some ")"%char /\
  operatorStack st = ["+"%string] /\
  inList "(" (operatorStack st) = false /\
  infixToPostfix "2+3)" = "2 3 +"%string /\
  infixToPostfixForPrefix "2+3)" = "2 3 +"%string.
Proof. repeat split; vm_compute; reflexivity. Qed.

(** C10: at the end of the input every entry left on the operator stack
    goes to the output, a '(' like any operator, so that "(2+3" converts
    to "2 3 + (". *)
Theorem leftover_open_paren :
  (forall pops infix,
      let st := convLoop (String.length infix) pops infix convInit in
      convert pops infix = JS.join " " (output st ++ operatorStack st)) /\
  (let st := convLoop 4 popsPostfix "(2+3" convInit in
   output st = ["2"; "3"]%string /\ operatorStack st = ["+"; "("]%string) /\
  infixToPostfix "(2+3" = "2 3 + ("%string.
Proof.
  split; [|split; [split|]]; try (vm_compute; reflexivity).
  intros pops infix; cbv zeta; unfold convert.
  now rewrite popRemaining_app.
Qed.

(** ** Errors of the evaluators *)

Lemma forTokens_app body (before after : list string) (stack : list float) :
  forTokens body (before ++ after) stack =
    (stack' <- forTokens body before stack ;; forTokens body after stack').
Proof.
  revert stack; induction before as [|token before IH]; intros stack; simpl.
  - reflexivity.
  - destruct (body stack token) as [stack'|e]; simpl; [apply IH | reflexivity].
Qed.

(** [performOperation] throws 'Division by zero' for the operator "/" with
    a right-hand operand equal to zero, and in no other case. *)
Lemma performOperation_division_by_zero (operand1 operand2 : float) (operator : string) :
  performOperation operand1 operand2 operator = Throw DivisionByZero <->
  operator = "/"%string /\ (operand2 =? 0)%float = true.
Proof.
  unfold performOperation, throwIf. split.
  - destruct (String.eqb operator "+"); [discriminate|].
    destruct (String.eqb operator "-"); [discriminate|].
    destruct (String.eqb operator "*"); [discriminate|].
    destruct (String.eqb_spec operator "/") as [->|_]; [|discriminate].
    destruct (operand2 =? 0)%float; [now split | discriminate].
  - intros [-> Hz]. simpl. now rewrite Hz.
Qed.

Lemma operandToken_not_division_by_zero (stack : list float) (token : string) :
  operandToken stack token <> Throw DivisionByZero.
Proof.
  unfold operandToken.
  destruct (negb (JS.isNaN (JS.parseFloat token))); [discriminate|].
  destruct (lettersOnly token); discriminate.
Qed.

Lemma postfixBody_division_by_zero (stack : list float) (token : string) :
  postfixBody stack token = Throw DivisionByZero <->
  token = "/"%string /\
  exists operand2 operand1 below,
    stack = operand2 :: operand1 :: below /\ (operand2 =? 0)%float = true.
Proof.
  unfold postfixBody. split.
  - destruct (isOperator token).
    + destruct stack as [|operand2 [|operand1 below]]; try discriminate.
      destruct (performOperation operand1 operand2 token) as [v|e] eqn:Hop;
        simpl; [discriminate|].
      intros [= ->]. apply performOperation_division_by_zero in Hop as [-> Hz].
      split; [reflexivity|]. now exists operand2, operand1, below.
    + intros H. now apply operandToken_not_division_by_zero in H.
  - intros [-> (operand2 & operand1 & below & -> & Hz)].
    change (isOperator "/") with true; cbv iota.
    assert (H : performOperation operand1 operand2 "/" = Throw DivisionByZero)
      by now apply performOperation_division_by_zero.
    now rewrite H.
Qed.

Lemma prefixBody_division_by_zero (stack : list float) (token : string) :
  prefixBody stack token = Throw DivisionByZero <->
  token = "/"%string /\
  exists operand1 operand2 below,
    stack = operand1 :: operand2 :: below /\ (operand2 =? 0)%float = true.
Proof.
  unfold prefixBody. split.
  - destruct (isOperator token).
    + destruct stack as [|operand1 [|operand2 below]]; try discriminate.
      destruct (performOperation operand1 operand2 token) as [v|e] eqn:Hop;
        simpl; [discriminate|].
      intros [= ->]. apply performOperation_division_by_zero in Hop as [-> Hz].
      split; [reflexivity|]. now exists operand1, operand2, below.
    + intros H. now apply operandToken_not_division_by_zero in H.
  - intros [-> (operand1 & operand2 & below & -> & Hz)].
    change (isOperator "/") with true; cbv iota.
    assert (H : performOperation operand1 operand2 "/" = Throw DivisionByZero)
      by now apply performOperation_division_by_zero.
    now rewrite H.
Qed.

(** A loop over the tokens ends with a given error exactly when some
    token throws it on the stack built by the tokens before it. *)
Lemma forTokens_throw body (tokens : list string) (stack : list float) (e : error) :
  forTokens body tokens stack = Throw e <->
  exists before token after stack',
    tokens = before ++ token :: after /\
    forTokens body before stack = Ok stack' /\
    body stack' token = Throw e.
Proof.
  split.
  - revert stack; induction tokens as [|token rest IH]; intros stack; simpl.
    + discriminate.
    + destruct (body stack token) as [stack1|e1] eqn:Hbody; simpl.
      * intros H. apply IH in H as (before & t & after & stack' & -> & Hb & Ht).
        exists (token :: before), t, after, stack'. simpl. rewrite Hbody. simpl.
        now repeat split.
      * intros [= ->]. now exists [], token, rest, stack.
  - intros (before & token & after & stack' & -> & Hb & Ht).
    rewrite forTokens_app, Hb. simpl. now rewrite Ht.
Qed.

(** C5: the four sample failures of [evaluatePostfix], and the rule for
    'Division by zero': [performOperation] throws it exactly for "/" with
    a right-hand operand equal to zero; [evaluatePostfix] throws it exactly
    when some "/" token finds a zero on top of the stack (its [operand2]),
    [evaluatePrefix] exactly when some "/" token finds a zero just below
    the top (its [operand2]). *)
Theorem evaluation_errors :
  evaluatePostfix "x 2 +" = Throw (UnboundVariable "x") /\
  evaluatePostfix "2 +" = Throw InsufficientOperands /\
  evaluatePostfix "2 0 /" = Throw DivisionByZero /\
  evaluatePostfix "2 3" = Throw MalformedExpression /\
  (forall operand1 operand2 operator,
      performOperation operand1 operand2 operator = Throw DivisionByZero <->
      operator = "/"%string /\ (operand2 =? 0)%float = true) /\
  (forall operand1 operand2,
      performOperation operand1 operand2 "/" =
        if (operand2 =? 0)%float then Throw DivisionByZero
        else Ok (operand1 / operand2)%float) /\
  (forall postfix,
      evaluatePostfix postfix = Throw DivisionByZero <->
      exists before after operand2 operand1 below,
        JS.split " " postfix = before ++ "/"%string :: after /\
        forTokens postfixBody before [] = Ok (operand2 :: operand1 :: below) /\
        (operand2 =? 0)%float = true) /\
  (forall prefix,
      evaluatePrefix prefix = Throw DivisionByZero <->
      exists before after operand1 operand2 below,
        rev (JS.split " " prefix) = before ++ "/"%string :: after /\
        forTokens prefixBody before [] = Ok (operand1 :: operand2 :: below) /\
        (operand2 =? 0)%float = true).
Proof.
  do 4 (split; [vm_compute; reflexivity|]).
  split; [|split; [|split]].
  - apply performOperation_division_by_zero.
  - intros operand1 operand2. unfold performOperation, throwIf. reflexivity.
  - intros postfix. unfold evaluatePostfix. split.
    + destruct (forTokens postfixBody (JS.split " " postfix) []) as [stack|e] eqn:Hrun;
        simpl.
      * destruct stack as [|v [|w stack]]; discriminate.
      * intros [= ->].
        apply forTokens_throw in Hrun as (before & token & after & stack' & Heq & Hb & Ht).
        apply postfixBody_division_by_zero in Ht
          as [-> (operand2 & operand1 & below & -> & Hz)].
        now exists before, after, operand2, operand1, below.
    + intros (before & after & operand2 & operand1 & below & Heq & Hb & Hz).
      assert (Hrun : forTokens postfixBody (JS.split " " postfix) [] = Throw DivisionByZero).
      { apply forTokens_throw.
        exists before, "/"%string, after, (operand2 :: operand1 :: below).
        repeat split; try assumption.
        apply postfixBody_division_by_zero. split; [reflexivity|].
        now exists operand2, operand1, below. }
      now rewrite Hrun.
  - intros prefix. unfold evaluatePrefix. split.
    + destruct (forTokens prefixBody (rev (JS.split " " prefix)) []) as [stack|e] eqn:Hrun;
        simpl.
      * destruct stack as [|v [|w stack]]; discriminate.
      * intros [= ->].
        apply forTokens_throw in Hrun as (before & token & after & stack' & Heq & Hb & Ht).
        apply prefixBody_division_by_zero in Ht
          as [-> (operand1 & operand2 & below & -> & Hz)].
        now exists before, after, operand1, operand2, below.
    + intros (before & after & operand1 & operand2 & below & Heq & Hb & Hz).
      assert (Hrun : forTokens prefixBody (rev (JS.split " " prefix)) [] = Throw DivisionByZero).
      { apply forTokens_throw.
        exists before, "/"%string, after, (operand1 :: operand2 :: below).
        repeat split; try assumption.
        apply prefixBody_division_by_zero. split; [reflexivity|].
        now exists operand1, operand2, below. }
      now rewrite Hrun.
Qed.

Lemma evaluation_errors_witness :
  (0 =? 0)%float = true /\
  performOperation 2%float 0%float "/" = Throw DivisionByZero.
Proof.
  split; [reflexivity|].
  apply (proj1 (proj2 (proj2 (proj2 (proj2 evaluation_errors))))).
  split; reflexivity.
Defined.

(** ** Tokens that are not operators *)

Lemma digit_not_space (c : ascii) :
  Char.isDigit c = true -> JS.isWhiteSpace c = false.
Proof. destruct c as [[] [] [] [] [] [] [] []]; try discriminate; reflexivity. Qed.

Lemma digit_no_sign (c : ascii) (r : string) :
  Char.isDigit c = true -> JS.readSign (String c r) = (false, String c r).
Proof. destruct c as [[] [] [] [] [] [] [] []]; try discriminate; reflexivity. Qed.

Lemma digit_not_Infinity (c : ascii) (r : string) :
  Char.isDigit c = true -> String.prefix "Infinity" (String c r) = false.
Proof. destruct c as [[] [] [] [] [] [] [] []]; try discriminate; reflexivity. Qed.

Lemma letter_not_digit (c : ascii) :
  Char.isLetter c = true -> Char.isDigit c = false.
Proof. destruct c as [[] [] [] [] [] [] [] []]; try discriminate; reflexivity. Qed.

Lemma letter_not_dot (c : ascii) :
  Char.isLetter c = true -> c <> "."%char.
Proof. destruct c as [[] [] [] [] [] [] [] []]; discriminate. Qed.

Lemma letter_no_sign (c : ascii) (r : string) :
  Char.isLetter c = true -> JS.readSign (String c r) = (false, String c r).
Proof. destruct c as [[] [] [] [] [] [] [] []]; try discriminate; reflexivity. Qed.

Lemma readDigits_count (s : string) :
  forall acc n, (n <= snd (fst (JS.readDigits s acc n)))%Z.
Proof.
  induction s as [|c s IH]; intros acc n; cbn [JS.readDigits fst snd]; [lia|].
  destruct (Char.isDigit c); cbn [fst snd]; [|lia].
  specialize (IH (10 * acc + JS.digitValue c)%Z (n + 1)%Z). lia.
Qed.

(** Digits followed by something that does not start with a digit: the
    digits are read and the rest is left. *)
Lemma readDigits_app (d r : string) :
  Re.all Char.isDigit d = true ->
  Re.startsWith Char.isDigit r = false ->
  forall acc n,
    JS.readDigits (d ++ r) acc n =
      (fst (fst (JS.readDigits d acc n)), snd (fst (JS.readDigits d acc n)), r).
Proof.
  intros Hd Hr. induction d as [|c d IH]; intros acc n.
  - destruct r as [|c r]; simpl; [reflexivity|].
    simpl in Hr. now rewrite Hr.
  - simpl in Hd. apply andb_prop in Hd as [Hc Hd].
    simpl. rewrite Hc. apply IH, Hd.
Qed.

Lemma letters_no_exponent (r : string) :
  Re.all Char.isLetter r = true -> JS.readExponent r = 0%Z.
Proof.
  destruct r as [|c r]; [reflexivity|]. simpl. intros H.
  apply andb_prop in H as [_ Hr].
  destruct (Ascii.eqb c "e" || Ascii.eqb c "E")%bool; [|reflexivity].
  destruct r as [|c' r]; [reflexivity|].
  simpl in Hr. apply andb_prop in Hr as [Hc' _].
  rewrite (letter_no_sign c' r Hc'). simpl.
  now rewrite (letter_not_digit c' Hc').
Qed.

(** [parseFloat] on digits followed by letters reads the digits only. *)
Lemma parseFloat_digits_letters (d r : string) :
  Re.plus Char.isDigit d = true ->
  Re.all Char.isLetter r = true ->
  JS.parseFloat (d ++ r) = JS.parseFloat d.
Proof.
  intros Hd Hr.
  assert (Hgen : forall r', Re.all Char.isLetter r' = true ->
            JS.parseFloat (d ++ r') =
              JS.roundDecimal false (fst (fst (JS.readDigits d 0 0))) 0).
  { clear r Hr. intros r Hr.
    destruct d as [|c d]; [discriminate|].
    simpl in Hd. pose proof Hd as Hall.
    apply andb_prop in Hd as [Hc Hd].
    unfold JS.parseFloat.
    change (String c d ++ r)%string with (String c (d ++ r)).
    simpl JS.trimStart. rewrite (digit_not_space c Hc).
    rewrite (digit_no_sign c _ Hc), (digit_not_Infinity c _ Hc).
    change (String c (d ++ r)) with (String c d ++ r)%string.
    assert (Hstart : Re.startsWith Char.isDigit r = false).
    { destruct r as [|c' r]; [reflexivity|]. simpl in *.
      apply andb_prop in Hr as [Hc' _]. now apply letter_not_digit. }
    rewrite (readDigits_app (String c d) r Hall Hstart).
    pose proof (readDigits_count d (10 * 0 + JS.digitValue c) (0 + 1)) as Hn.
    assert (Hpos : (1 <= snd (fst (JS.readDigits (String c d) 0 0)))%Z).
    { simpl. rewrite Hc. exact Hn. }
    set (m := fst (fst (JS.readDigits (String c d) 0 0))) in *.
    set (n := snd (fst (JS.readDigits (String c d) 0 0))) in *.
    assert (Hfrac : match r with
                    | String "."%char r0 => JS.readDigits r0 m 0
                    | _ => (m, 0%Z, r)
                    end = (m, 0%Z, r)).
    { destruct r as [|c' r]; [reflexivity|]. simpl in Hr.
      apply andb_prop in Hr as [Hc' _].
      pose proof (letter_not_dot c' Hc') as Hdot.
      destruct c' as [[] [] [] [] [] [] [] []]; try reflexivity; congruence. }
    rewrite Hfrac.
    replace (n + 0 =? 0)%Z with false by (symmetry; apply Z.eqb_neq; lia).
    now rewrite (letters_no_exponent r Hr). }
  rewrite (Hgen r Hr).
  specialize (Hgen EmptyString eq_refl).
  rewrite <- Hgen. f_equal.
  clear. induction d as [|c d IH]; simpl; [reflexivity | now rewrite IH].
Qed.

Lemma digit_start_not_operator (c : ascii) (r : string) :
  Char.isDigit c = true -> isOperator (String c r) = false.
Proof. destruct c as [[] [] [] [] [] [] [] []]; try discriminate; reflexivity. Qed.

(** C8: in both evaluators a token that is not an operator and for which
    [parseFloat] gives a number is pushed as that number; [parseFloat]
    reads the leading digits of a token and ignores letters after them,
    so "12x" counts as 12 and both "12x 3 +" and "+ 12x 3" evaluate
    to 15. *)
Theorem numeric_prefix_token :
  (forall stack token,
      isOperator token = false ->
      JS.isNaN (JS.parseFloat token) = false ->
      postfixBody stack token = Ok (JS.parseFloat token :: stack) /\
      prefixBody stack token = Ok (JS.parseFloat token :: stack)) /\
  (forall d r,
      Re.plus Char.isDigit d = true ->
      Re.all Char.isLetter r = true ->
      isOperator (d ++ r) = false /\
      JS.parseFloat (d ++ r) = JS.parseFloat d) /\
  JS.parseFloat "12x" = 12%float /\
  lettersOnly "12x" = false /\
  evaluatePostfix "12x 3 +" = Ok 15%float /\
  evaluatePrefix "+ 12x 3" = Ok 15%float.
Proof.
  split; [|split; [|repeat split; vm_compute; reflexivity]].
  - intros stack token Hop Hnum.
    unfold postfixBody, prefixBody, operandToken.
    now rewrite Hop, Hnum.
  - intros d r Hd Hr. split.
    + destruct d as [|c d]; [discriminate|].
      simpl in Hd. apply andb_prop in Hd as [Hc _].
      now apply digit_start_not_operator.
    + now apply parseFloat_digits_letters.
Qed.

Lemma numeric_prefix_token_witness :
  isOperator "12x" = false /\
  JS.isNaN (JS.parseFloat "12x") = false /\
  postfixBody [] "12x" = Ok [JS.parseFloat "12x"] /\
  prefixBody [] "12x" = Ok [JS.parseFloat "12x"].
Proof.
  split; [reflexivity|]. split; [reflexivity|].
  apply (proj1 numeric_prefix_token [] "12x"%string); reflexivity.
Defined.

Lemma skipped_body (stack : list float) (token : string) :
  skipped token = true ->
  postfixBody stack token = Ok stack /\ prefixBody stack token = Ok stack.
Proof.
  unfold skipped. intros H.
  apply andb_prop in H as [H Hletters]. apply andb_prop in H as [Hop Hnan].
  apply negb_true_iff in Hop, Hletters.
  unfold postfixBody, prefixBody, operandToken.
  now rewrite Hop, Hnan, Hletters.
Qed.

(** Dropping the skipped tokens from a token list does not change the
    outcome of the loop. *)
Lemma forTokens_drop_skipped body (tokens : list string) :
  (forall stack token, skipped token = true -> body stack token = Ok stack) ->
  forall stack,
    forTokens body (filter (fun t => negb (skipped t)) tokens) stack =
    forTokens body tokens stack.
Proof.
  intros Hbody. induction tokens as [|token rest IH]; intros stack;
    cbn [filter forTokens]; [reflexivity|].
  destruct (skipped token) eqn:Hskip; cbn [negb forTokens].
  - rewrite (Hbody stack token Hskip). simpl. apply IH.
  - destruct (body stack token) as [stack'|e]; simpl; [apply IH | reflexivity].
Qed.

(** C9: in both evaluators a token that is not an operator, for which
    [parseFloat] gives [NaN] and that is not made of letters only leaves
    the stack as it is and raises nothing, so such tokens can be removed
    from the input without changing the outcome; "x1", "(" and the empty
    token are of this kind, and "x1" alone ends with an empty stack, that
    is with the 'incorrect number of operators' error. *)
Theorem skipped_token :
  (forall stack token,
      isOperator token = false ->
      JS.isNaN (JS.parseFloat token) = true ->
      lettersOnly token = false ->
      postfixBody stack token = Ok stack /\ prefixBody stack token = Ok stack) /\
  (forall tokens stack,
      forTokens postfixBody (filter (fun t => negb (skipped t)) tokens) stack =
      forTokens postfixBody tokens stack) /\
  (forall tokens stack,
      forTokens prefixBody (filter (fun t => negb (skipped t)) tokens) stack =
      forTokens prefixBody tokens stack) /\
  skipped "x1" = true /\ skipped "(" = true /\ skipped "" = true /\
  forTokens postfixBody ["x1"%string] [] = Ok [] /\
  evaluatePostfix "x1" = Throw MalformedExpression /\
  evaluatePrefix "x1" = Throw MalformedExpression.
Proof.
  split; [|split; [|split; [|repeat split; vm_compute; reflexivity]]].
  - intros stack token Hop Hnan Hletters.
    apply skipped_body. unfold skipped. now rewrite Hop, Hnan, Hletters.
  - intros tokens stack. apply forTokens_drop_skipped.
    intros s t Ht. apply (skipped_body s t Ht).
  - intros tokens stack. apply forTokens_drop_skipped.
    intros s t Ht. apply (skipped_body s t Ht).
Qed.

Lemma skipped_token_witness :
  isOperator "x1" = false /\
  JS.isNaN (JS.parseFloat "x1") = true /\
  lettersOnly "x1" = false /\
  postfixBody [] "x1" = Ok [] /\ prefixBody [] "x1" = Ok [].
Proof.
  do 3 (split; [reflexivity|]).
  apply (proj1 skipped_token [] "x1"%string); reflexivity.
Defined.

(** ** Validation *)

Lemma balanceLoop_throw (expression : string) :
  forall balance e,
    balanceLoop expression balance = Throw e -> e = UnmatchedClosingParen.
Proof.
  induction expression as [|char rest IH]; intros balance e; cbn [balanceLoop].
  - discriminate.
  - unfold throwIf.
    match goal with |- context [(?b <? 0)%Z] => destruct (b <? 0)%Z end.
    + now intros [= <-].
    + apply IH.
Qed.

(** [validateExpression] returns normally exactly when none of the five
    checks fails. *)
Lemma validate_ok (expression : string) :
  validateExpression expression = Ok tt <->
  validChars expression = true /\
  balanceLoop expression 0 = Ok 0%Z /\
  consecutiveOperators expression = false /\
  badBoundary expression = false /\
  emptyParens expression = false.
Proof.
  unfold validateExpression, throwIf, bind.
  destruct (validChars expression); cbn [negb];
    [|split; [discriminate | intros [H _]; discriminate]].
  destruct (balanceLoop expression 0) as [balance|e];
    [|split; [discriminate | intros (_ & H & _); discriminate]].
  destruct (Z.eqb_spec balance 0) as [->|Hne]; cbn [negb];
    [|split; [discriminate | intros (_ & [= H] & _); contradiction]].
  destruct (consecutiveOperators expression);
    [split; [discriminate | intros (_ & _ & H & _); discriminate]|].
  destruct (badBoundary expression);
    [split; [discriminate | intros (_ & _ & _ & H & _); discriminate]|].
  destruct (emptyParens expression);
    [split; [discriminate | intros (_ & _ & _ & _ & H); discriminate]|].
  now repeat split.
Qed.

(** Which check raises which error: each error is raised exactly when
    its check fails and every earlier check has passed. *)
Lemma validate_throw (expression : string) :
  (validateExpression expression = Throw InvalidCharacter <->
     validChars expression = false) /\
  (validateExpression expression = Throw UnmatchedClosingParen <->
     validChars expression = true /\
     balanceLoop expression 0 = Throw UnmatchedClosingParen) /\
  (validateExpression expression = Throw UnmatchedOpeningParen <->
     validChars expression = true /\
     exists balance, balanceLoop expression 0 = Ok balance /\ balance <> 0%Z) /\
  (validateExpression expression = Throw ConsecutiveOperators <->
     validChars expression = true /\
     balanceLoop expression 0 = Ok 0%Z /\
     consecutiveOperators expression = true) /\
  (validateExpression expression = Throw InvalidBoundary <->
     validChars expression = true /\
     balanceLoop expression 0 = Ok 0%Z /\
     consecutiveOperators expression = false /\
     badBoundary expression = true) /\
  (validateExpression expression = Throw EmptyParens <->
     validChars expression = true /\
     balanceLoop expression 0 = Ok 0%Z /\
     consecutiveOperators expression = false /\
     badBoundary expression = false /\
     emptyParens expression = true).
Proof.
  unfold validateExpression, throwIf, bind.
  destruct (validChars expression); cbn [negb];
    [|repeat split; try discriminate; try reflexivity;
      intros H; decompose record H; discriminate].
  destruct (balanceLoop expression 0) as [balance|e] eqn:Hbal.
  2:{ apply balanceLoop_throw in Hbal as ->.
      repeat split; try discriminate; try reflexivity;
        intros H; decompose record H; discriminate. }
  destruct (Z.eqb_spec balance 0) as [->|Hne]; cbn [negb].
  2:{ repeat split; try discriminate; try reflexivity;
        try (intros H; decompose record H; first [discriminate | congruence]).
      now exists balance. }
  destruct (consecutiveOperators expression);
    [|destruct (badBoundary expression);
      [|destruct (emptyParens expression)]];
    repeat split; try discriminate; try reflexivity;
      intros H; decompose record H; first [discriminate | congruence].
Qed.

(** [Re.adjacent p q s] holds exactly when [s] has two neighbouring
    characters, the first in [p] and the second in [q]. *)
Lemma adjacent_spec (p q : ascii -> bool) (s : string) :
  Re.adjacent p q s = true <->
  exists before x y after,
    s = (before ++ String x (String y after))%string /\
    p x = true /\ q y = true.
Proof.
  split.
  - induction s as [|x r IH]; cbn [Re.adjacent]; [discriminate|].
    destruct r as [|y r']; [discriminate|].
    intros H. apply orb_prop in H as [H|H].
    + apply andb_prop in H as [Hx Hy]. now exists EmptyString, x, y, r'.
    + destruct (IH H) as (before & x' & y' & after & Heq & Hx & Hy).
      exists (String x before), x', y', after. cbn. now rewrite Heq.
  - intros (before & x & y & after & -> & Hx & Hy).
    induction before as [|c before IH]; cbn [append Re.adjacent].
    + now rewrite Hx, Hy.
    + destruct (before ++ String x (String y after))%string eqn:Heq.
      * destruct before; discriminate.
      * rewrite IH. apply orb_true_r.
Qed.

(** The last check fails exactly on the inputs that contain "()". *)
Lemma emptyParens_spec (expression : string) :
  emptyParens expression = true <->
  exists before after, expression = (before ++ "()" ++ after)%string.
Proof.
  unfold emptyParens. rewrite adjacent_spec. split.
  - intros (before & x & y & after & -> & Hx & Hy).
    apply Ascii.eqb_eq in Hx, Hy. subst. now exists before, after.
  - intros (before & after & ->).
    exists before, "("%char, ")"%char, after. now repeat split.
Qed.

(** C4, as the code has it: the six sample rejections; the checks run in
    the order character set, parenthesis balance, consecutive operators,
    boundary, empty parentheses, each error being raised exactly when its
    check fails after all earlier checks have passed, and the function
    returns normally exactly when no check fails; an input that contains
    "()" is always rejected, with 'Empty parentheses' when it passes the
    four earlier checks. *)
Theorem validation_order :
  (validateExpression "2++3" = Throw ConsecutiveOperators /\
   validateExpression "(2+3" = Throw UnmatchedOpeningParen /\
   validateExpression "2+3)" = Throw UnmatchedClosingParen /\
   validateExpression "()" = Throw EmptyParens /\
   validateExpression "2+()" = Throw EmptyParens /\
   validateExpression "*2+3" = Throw InvalidBoundary /\
   validateExpression "2#3" = Throw InvalidCharacter) /\
  (forall e,
      (validateExpression e = Throw InvalidCharacter <->
         validChars e = false) /\
      (validateExpression e = Throw UnmatchedClosingParen <->
         validChars e = true /\
         balanceLoop e 0 = Throw UnmatchedClosingParen) /\
      (validateExpression e = Throw UnmatchedOpeningParen <->
         validChars e = true /\
         exists balance, balanceLoop e 0 = Ok balance /\ balance <> 0%Z) /\
      (validateExpression e = Throw ConsecutiveOperators <->
         validChars e = true /\ balanceLoop e 0 = Ok 0%Z /\
         consecutiveOperators e = true) /\
      (validateExpression e = Throw InvalidBoundary <->
         validChars e = true /\ balanceLoop e 0 = Ok 0%Z /\
         consecutiveOperators e = false /\ badBoundary e = true) /\
      (validateExpression e = Throw EmptyParens <->
         validChars e = true /\ balanceLoop e 0 = Ok 0%Z /\
         consecutiveOperators e = false /\ badBoundary e = false /\
         emptyParens e = true)) /\
  (forall e,
      validateExpression e = Ok tt <->
      validChars e = true /\ balanceLoop e 0 = Ok 0%Z /\
      consecutiveOperators e = false /\ badBoundary e = false /\
      emptyParens e = false) /\
  (forall before after,
      let e := (before ++ "()" ++ after)%string in
      validateExpression e <> Ok tt /\
      (validChars e = true -> balanceLoop e 0 = Ok 0%Z ->
       consecutiveOperators e = false -> badBoundary e = false ->
       validateExpression e = Throw EmptyParens)).
Proof.
  split; [repeat split; vm_compute; reflexivity|].
  split; [apply validate_throw|].
  split; [apply validate_ok|].
  intros before after e.
  assert (He : emptyParens e = true)
    by (apply emptyParens_spec; now exists before, after).
  split.
  - intros H. apply validate_ok in H as (_ & _ & _ & _ & H). congruence.
  - intros H1 H2 H3 H4. now apply validate_throw.
Qed.

Lemma validation_order_witness :
  let e := ("2+" ++ "()" ++ "*3")%string in
  validChars e = true /\ balanceLoop e 0 = Ok 0%Z /\
  consecutiveOperators e = false /\ badBoundary e = false /\
  validateExpression e = Throw EmptyParens.
Proof.
  do 4 (split; [reflexivity|]).
  apply (proj2 (proj2 (proj2 (proj2 validation_order)) "2+" "*3")%string);
    reflexivity.
Defined.

(** C4, as the claim has it, fails: "()+" and "(()" contain "()" and are
    rejected by an earlier check, with another error. *)
Lemma empty_parens_other_error :
  ~ (forall before after,
        validateExpression (before ++ "()" ++ after) = Throw EmptyParens).
Proof.
  intros H. specialize (H EmptyString "+"%string). vm_compute in H. discriminate.
Qed.

(** ** A minus sign at either end *)

Lemma all_app (p : ascii -> bool) (a b : string) :
  Re.all p (a ++ b) = (Re.all p a && Re.all p b)%bool.
Proof.
  induction a as [|c a IH]; cbn [append Re.all]; [reflexivity|].
  now rewrite IH, andb_assoc.
Qed.

Lemma plus_snoc (p : ascii -> bool) (a : string) (c : ascii) :
  Re.plus p a = true -> p c = true -> Re.plus p (a ++ str c) = true.
Proof.
  destruct a as [|x a]; [discriminate|]. intros Ha Hc.
  change (Re.plus p (String x a ++ str c))
    with (Re.all p (String x a ++ str c)).
  rewrite all_app. change (Re.plus p (String x a)) with (Re.all p (String x a)) in Ha.
  rewrite Ha. cbn. now rewrite Hc.
Qed.

Lemma balanceLoop_app (a b : string) :
  forall balance,
    balanceLoop (a ++ b) balance =
      (balance' <- balanceLoop a balance ;; balanceLoop b balance').
Proof.
  induction a as [|c a IH]; intros balance; cbn [append balanceLoop bind];
    [reflexivity|].
  unfold throwIf.
  match goal with |- context [(?n <? 0)%Z] => destruct (n <? 0)%Z end;
    [reflexivity | apply IH].
Qed.

Lemma endsWith_snoc (p : ascii -> bool) (a : string) (c : ascii) :
  Re.endsWith p (a ++ str c) = p c.
Proof.
  induction a as [|x a IH]; [reflexivity|].
  cbn [append]. destruct (a ++ str c)%string eqn:Heq.
  - destruct a; discriminate.
  - cbn [Re.endsWith]. exact IH.
Qed.

Lemma startsWith_app (p : ascii -> bool) (a b : string) :
  a <> EmptyString -> Re.startsWith p (a ++ b) = Re.startsWith p a.
Proof. destruct a; [congruence | reflexivity]. Qed.

Lemma endsWith_cons (p : ascii -> bool) (c : ascii) (a : string) :
  a <> EmptyString -> Re.endsWith p (String c a) = Re.endsWith p a.
Proof. destruct a; [congruence | reflexivity]. Qed.

Lemma adjacent_cons (p q : ascii -> bool) (c : ascii) (a : string) :
  Re.adjacent p q (String c a) =
    ((p c && Re.startsWith q a) || Re.adjacent p q a)%bool.
Proof.
  destruct a as [|x a]; cbn [Re.adjacent Re.startsWith]; [|reflexivity].
  now rewrite andb_false_r.
Qed.

Lemma adjacent_snoc (p q : ascii -> bool) (a : string) (c : ascii) :
  Re.adjacent p q (a ++ str c) =
    (Re.adjacent p q a || (Re.endsWith p a && q c))%bool.
Proof.
  induction a as [|x a IH]; [reflexivity|].
  change (String x a ++ str c)%string with (String x (a ++ str c)).
  rewrite adjacent_cons, IH, adjacent_cons.
  destruct a as [|y a].
  - cbn. destruct (p x), (q c); reflexivity.
  - rewrite startsWith_app by discriminate.
    rewrite (endsWith_cons p x (String y a)) by discriminate.
    now rewrite orb_assoc.
Qed.

Lemma isArithNoMinus_isArith (c : ascii) :
  Char.isArithNoMinus c = true -> Char.isArith c = true.
Proof. destruct c as [[] [] [] [] [] [] [] []]; try discriminate; reflexivity. Qed.

Lemma isArith_isValid (c : ascii) :
  Char.isArith c = true -> Char.isValid c = true.
Proof. destruct c as [[] [] [] [] [] [] [] []]; try discriminate; reflexivity. Qed.

Lemma isArith_not_paren (c : ascii) :
  Char.isArith c = true -> Ascii.eqb "(" c = false /\ Ascii.eqb ")" c = false
                           /\ Ascii.eqb c "(" = false /\ Ascii.eqb c ")" = false.
Proof. destruct c as [[] [] [] [] [] [] [] []]; try discriminate; now repeat split. Qed.

Lemma endsWith_weaken (a : string) :
  Re.endsWith Char.isArith a = false -> Re.endsWith Char.isArithNoMinus a = false.
Proof.
  induction a as [|c a IH]; [reflexivity|].
  destruct a as [|y a]; cbn [Re.endsWith]; [|exact IH].
  intros H. destruct (Char.isArithNoMinus c) eqn:Hc; [|reflexivity].
  apply isArithNoMinus_isArith in Hc. congruence.
Qed.

(** The first four checks on an accepted expression followed by one
    arithmetic character, when the expression does not end with one. *)
Lemma validate_snoc (e : string) (c : ascii) :
  validateExpression e = Ok tt ->
  Re.endsWith Char.isArith e = false ->
  Char.isArith c = true ->
  validChars (e ++ str c) = true /\
  balanceLoop (e ++ str c) 0 = Ok 0%Z /\
  consecutiveOperators (e ++ str c) = false /\
  badBoundary (e ++ str c) = Char.isArithNoMinus c /\
  emptyParens (e ++ str c) = false.
Proof.
  intros Hok Hend Hc.
  apply validate_ok in Hok as (Hchars & Hbal & Hcons & Hbound & Hempty).
  assert (Hne : e <> EmptyString) by (destruct e; [discriminate | congruence]).
  destruct (isArith_not_paren c Hc) as (Hc1 & Hc2 & Hc3 & Hc4).
  unfold badBoundary in Hbound. apply orb_false_elim in Hbound as [Hlast Hfirst].
  repeat split.
  - apply plus_snoc; [exact Hchars | now apply isArith_isValid].
  - rewrite balanceLoop_app, Hbal. unfold str. cbn [bind balanceLoop].
    now rewrite Hc3, Hc4.
  - unfold consecutiveOperators in *. now rewrite adjacent_snoc, Hcons, Hend.
  - unfold badBoundary.
    rewrite endsWith_snoc, startsWith_app, Hfirst by exact Hne.
    apply orb_false_r.
  - unfold emptyParens in *. rewrite adjacent_snoc, Hempty, Hc2.
    now rewrite andb_false_r.
Qed.

(** C7: a minus sign at the start or at the end is not a boundary error.
    "-5+3", "2-" and "-" pass the validation while "2+", "2*" and "2/"
    fail the boundary check; in general, an accepted expression that does
    not start with an operator is still accepted with '-' put in front of
    it, and an accepted expression that does not end with an operator is
    still accepted with '-' put after it, but fails the boundary check
    with '+', '*' or '/' put after it. *)
Theorem minus_at_boundary :
  (validateExpression "-5+3" = Ok tt /\
   validateExpression "2-" = Ok tt /\
   validateExpression "-" = Ok tt /\
   validateExpression "2+" = Throw InvalidBoundary /\
   validateExpression "2*" = Throw InvalidBoundary /\
   validateExpression "2/" = Throw InvalidBoundary) /\
  (forall e,
      validateExpression e = Ok tt ->
      Re.startsWith Char.isArith e = false ->
      validateExpression ("-" ++ e) = Ok tt) /\
  (forall e,
      validateExpression e = Ok tt ->
      Re.endsWith Char.isArith e = false ->
      validateExpression (e ++ "-") = Ok tt) /\
  (forall e c,
      validateExpression e = Ok tt ->
      Re.endsWith Char.isArith e = false ->
      Char.isArithNoMinus c = true ->
      validateExpression (e ++ str c) = Throw InvalidBoundary).
Proof.
  split; [repeat split; vm_compute; reflexivity|].
  split; [|split].
  - intros e Hok Hstart.
    apply validate_ok in Hok as (Hchars & Hbal & Hcons & Hbound & Hempty).
    assert (Hne : e <> EmptyString) by (destruct e; [discriminate | congruence]).
    unfold badBoundary in Hbound. apply orb_false_elim in Hbound as [Hlast Hfirst].
    change ("-" ++ e)%string with (String "-" e).
    apply validate_ok. repeat split.
    + unfold validChars in *. destruct e; [discriminate|]. exact Hchars.
    + cbn [balanceLoop]. exact Hbal.
    + unfold consecutiveOperators in *.
      now rewrite adjacent_cons, Hstart, Hcons, andb_false_r.
    + unfold badBoundary. now rewrite endsWith_cons, Hlast by exact Hne.
    + unfold emptyParens in *. now rewrite adjacent_cons, Hempty.
  - intros e Hok Hend.
    destruct (validate_snoc e "-" Hok Hend eq_refl) as (H1 & H2 & H3 & H4 & H5).
    apply validate_ok. now repeat split.
  - intros e c Hok Hend Hc.
    destruct (validate_snoc e c Hok Hend (isArithNoMinus_isArith c Hc))
      as (H1 & H2 & H3 & H4 & H5).
    apply validate_throw. rewrite Hc in H4. now repeat split.
Qed.

Lemma minus_at_boundary_witness :
  (validateExpression "5+3" = Ok tt /\
   Re.startsWith Char.isArith "5+3" = false /\
   validateExpression ("-" ++ "5+3") = Ok tt) /\
  (validateExpression "2" = Ok tt /\
   Re.endsWith Char.isArith "2" = false /\
   validateExpression ("2" ++ "-") = Ok tt) /\
  (Char.isArithNoMinus "*" = true /\
   validateExpression ("2" ++ str "*") = Throw InvalidBoundary).
Proof.
  split; [|split].
  - do 2 (split; [reflexivity|]).
    apply (proj1 (proj2 minus_at_boundary) "5+3"%string); reflexivity.
  - do 2 (split; [reflexivity|]).
    apply (proj1 (proj2 (proj2 minus_at_boundary)) "2"%string); reflexivity.
  - split; [reflexivity|].
    apply (proj2 (proj2 (proj2 minus_at_boundary)) "2"%string "*"%char);
      reflexivity.
Defined.

(** * Further properties *)

(** ** From the conversion to the evaluation: [join] then [split] *)

Lemma split_no_space (a : string) :
  Tree.hasSpace a = false -> JS.split " " a = [a].
Proof.
  unfold Tree.hasSpace, chars.
  induction a as [|c a IH]; cbn [list_ascii_of_string existsb JS.split];
    [reflexivity|].
  intros H. apply orb_false_elim in H as [Hc Ha].
  rewrite Ascii.eqb_sym, Hc, (IH Ha). reflexivity.
Qed.

Lemma split_cons_token (a rest : string) :
  Tree.hasSpace a = false ->
  JS.split " " (a ++ String " " rest) = a :: JS.split " " rest.
Proof.
  unfold Tree.hasSpace, chars.
  induction a as [|c a IH]; cbn [list_ascii_of_string existsb append].
  - reflexivity.
  - intros H. apply orb_false_elim in H as [Hc Ha].
    cbn [JS.split]. rewrite Ascii.eqb_sym, Hc, (IH Ha). reflexivity.
Qed.

Lemma split_join (tokens : list string) :
  tokens <> [] ->
  forallb (fun t => negb (Tree.hasSpace t)) tokens = true ->
  JS.split " " (JS.join " " tokens) = tokens.
Proof.
  induction tokens as [|a rest IH]; [congruence|]. intros _ H.
  cbn [forallb] in H. apply andb_prop in H as [Ha Hrest].
  apply negb_true_iff in Ha.
  destruct rest as [|b rest].
  - cbn [JS.join]. now apply split_no_space.
  - change (JS.join " " (a :: b :: rest))
      with (a ++ String " " (JS.join " " (b :: rest)))%string.
    rewrite split_cons_token by exact Ha.
    rewrite IH by (try discriminate; exact Hrest). reflexivity.
Qed.

(** ** The evaluators on the token sequences of a tree *)

Lemma postfix_tree_tokens (e : Tree.expr) :
  Tree.wellFormed e = true ->
  forall stack,
    forTokens postfixBody (Tree.postorder e) stack =
      (v <- Tree.value e ;; Ok (v :: stack)).
Proof.
  induction e as [token|operator lhs IHl rhs IHr]; cbn [Tree.wellFormed];
    intros Hwf stack.
  - apply andb_prop in Hwf as [Hwf _]. apply andb_prop in Hwf as [Hop Hnum].
    apply negb_true_iff in Hop.
    cbn [Tree.postorder Tree.value forTokens bind].
    unfold postfixBody, operandToken. rewrite Hop, Hnum. reflexivity.
  - apply andb_prop in Hwf as [Hwf Hr]. apply andb_prop in Hwf as [Hwf Hl].
    apply andb_prop in Hwf as [Hop _].
    cbn [Tree.postorder Tree.value].
    rewrite forTokens_app, (IHl Hl).
    destruct (Tree.value lhs) as [a|err]; cbn [bind]; [|reflexivity].
    rewrite forTokens_app, (IHr Hr).
    destruct (Tree.value rhs) as [b|err]; cbn [bind]; [|reflexivity].
    cbn [forTokens]. unfold postfixBody. rewrite Hop.
    destruct (performOperation a b operator); reflexivity.
Qed.

Lemma prefix_tree_tokens (e : Tree.expr) :
  Tree.wellFormed e = true ->
  forall stack,
    forTokens prefixBody (rev (Tree.preorder e)) stack =
      (v <- Tree.valueRightFirst e ;; Ok (v :: stack)).
Proof.
  induction e as [token|operator lhs IHl rhs IHr]; cbn [Tree.wellFormed];
    intros Hwf stack.
  - apply andb_prop in Hwf as [Hwf _]. apply andb_prop in Hwf as [Hop Hnum].
    apply negb_true_iff in Hop.
    cbn [Tree.preorder Tree.valueRightFirst rev app forTokens bind].
    unfold prefixBody, operandToken. rewrite Hop, Hnum. reflexivity.
  - apply andb_prop in Hwf as [Hwf Hr]. apply andb_prop in Hwf as [Hwf Hl].
    apply andb_prop in Hwf as [Hop _].
    cbn [Tree.preorder Tree.valueRightFirst rev].
    rewrite rev_app_distr, <- app_assoc.
    rewrite forTokens_app, (IHr Hr).
    destruct (Tree.valueRightFirst rhs) as [b|err]; cbn [bind]; [|reflexivity].
    rewrite forTokens_app, (IHl Hl).
    destruct (Tree.valueRightFirst lhs) as [a|err]; cbn [bind]; [|reflexivity].
    cbn [forTokens]. unfold prefixBody. rewrite Hop.
    destruct (performOperation a b operator); reflexivity.
Qed.

Lemma tree_tokens_no_space (e : Tree.expr) :
  Tree.wellFormed e = true ->
  forallb (fun t => negb (Tree.hasSpace t)) (Tree.postorder e) = true /\
  forallb (fun t => negb (Tree.hasSpace t)) (Tree.preorder e) = true.
Proof.
  induction e as [token|operator lhs IHl rhs IHr]; cbn [Tree.wellFormed];
    intros Hwf.
  - apply andb_prop in Hwf as [_ Hsp].
    cbn [Tree.postorder Tree.preorder forallb]. now rewrite Hsp.
  - apply andb_prop in Hwf as [Hwf Hr]. apply andb_prop in Hwf as [Hwf Hl].
    apply andb_prop in Hwf as [_ Hsp].
    destruct (IHl Hl) as [Hl1 Hl2]. destruct (IHr Hr) as [Hr1 Hr2].
    cbn [Tree.postorder Tree.preorder].
    split.
    + rewrite !forallb_app, Hl1, Hr1. cbn [forallb andb]. now rewrite Hsp.
    + cbn [forallb]. now rewrite forallb_app, Hl2, Hr2, Hsp.
Qed.

Lemma postorder_not_nil (e : Tree.expr) : Tree.postorder e <> [].
Proof.
  destruct e; cbn; [discriminate|].
  intros H. apply app_eq_nil in H as [_ H]. apply app_eq_nil in H as [_ H].
  discriminate.
Qed.

Lemma preorder_not_nil (e : Tree.expr) : Tree.preorder e <> [].
Proof. destruct e; discriminate. Qed.

Lemma bind_single (r : result float) :
  (stack <- (v <- r ;; Ok [v]) ;; single stack) = r.
Proof. destruct r; reflexivity. Qed.

Lemma run_postfix_tree (e : Tree.expr) :
  Tree.wellFormed e = true ->
  evaluatePostfix (JS.join " " (Tree.postorder e)) = Tree.value e.
Proof.
  intros Hwf. unfold evaluatePostfix.
  rewrite split_join
    by (apply postorder_not_nil || apply (tree_tokens_no_space e Hwf)).
  rewrite (postfix_tree_tokens e Hwf). apply bind_single.
Qed.

(** X1: on the postfix token sequence of a tree whose leaves are numeric
    tokens and whose nodes are operator tokens, [evaluatePostfix] returns
    the value of the tree, computed left operand first, and raises the
    error of the tree when it has one. *)
Theorem postfix_evaluator_computes_tree (e : Tree.expr) :
  Tree.wellFormed e = true ->
  (forall stack,
      forTokens postfixBody (Tree.postorder e) stack
      = (v <- Tree.value e ;; Ok (v :: stack))) /\
  evaluatePostfix (JS.join " " (Tree.postorder e)) = Tree.value e.
Proof.
  intros H. split; [apply postfix_tree_tokens, H | apply run_postfix_tree, H].
Qed.

Lemma postfix_evaluator_computes_tree_witness :
  let e := (Tree.Node "*" (Tree.Node "+" (Tree.Leaf "2") (Tree.Leaf "3")) (Tree.Leaf "4")) in
  Tree.wellFormed e = true /\
  evaluatePostfix (JS.join " " (Tree.postorder e)) = Tree.value e.
Proof.
  split; [reflexivity|].
  apply (proj2 (postfix_evaluator_computes_tree (Tree.Node "*" (Tree.Node "+" (Tree.Leaf "2") (Tree.Leaf "3")) (Tree.Leaf "4")) eq_refl)).
Defined.

Lemma run_prefix_tree (e : Tree.expr) :
  Tree.wellFormed e = true ->
  evaluatePrefix (JS.join " " (Tree.preorder e)) = Tree.valueRightFirst e.
Proof.
  intros Hwf. unfold evaluatePrefix.
  rewrite split_join
    by (apply preorder_not_nil || apply (tree_tokens_no_space e Hwf)).
  rewrite (prefix_tree_tokens e Hwf). apply bind_single.
Qed.

(** X2: on the prefix token sequence of a tree whose leaves are numeric
    tokens and whose nodes are operator tokens, [evaluatePrefix] returns
    the value of the tree computed with the right operand first: the
    first value popped is the left operand. *)
Theorem prefix_evaluator_computes_tree (e : Tree.expr) :
  Tree.wellFormed e = true ->
  (forall stack,
      forTokens prefixBody (rev (Tree.preorder e)) stack
      = (v <- Tree.valueRightFirst e ;; Ok (v :: stack))) /\
  evaluatePrefix (JS.join " " (Tree.preorder e)) = Tree.valueRightFirst e.
Proof.
  intros H. split; [apply prefix_tree_tokens, H | apply run_prefix_tree, H].
Qed.

Lemma prefix_evaluator_computes_tree_witness :
  let e := (Tree.Node "*" (Tree.Node "+" (Tree.Leaf "2") (Tree.Leaf "3")) (Tree.Leaf "4")) in
  Tree.wellFormed e = true /\
  evaluatePrefix (JS.join " " (Tree.preorder e)) = Tree.valueRightFirst e.
Proof.
  split; [reflexivity|].
  apply (proj2 (prefix_evaluator_computes_tree (Tree.Node "*" (Tree.Node "+" (Tree.Leaf "2") (Tree.Leaf "3")) (Tree.Leaf "4")) eq_refl)).
Defined.

Lemma value_orders_agree (e : Tree.expr) (v : float) :
  Tree.value e = Ok v <-> Tree.valueRightFirst e = Ok v.
Proof.
  revert v; induction e as [token|operator lhs IHl rhs IHr]; intros v;
    cbn [Tree.value Tree.valueRightFirst]; [reflexivity|].
  destruct (Tree.value lhs) as [a|ea], (Tree.valueRightFirst lhs) as [a'|ea'],
           (Tree.value rhs) as [b|eb], (Tree.valueRightFirst rhs) as [b'|eb'];
    cbn [bind];
    try (pose proof (proj1 (IHl a) eq_refl); discriminate);
    try (pose proof (proj2 (IHl a') eq_refl); discriminate);
    try (pose proof (proj1 (IHr b) eq_refl); discriminate);
    try (pose proof (proj2 (IHr b') eq_refl); discriminate);
    try (split; discriminate).
  pose proof (proj1 (IHl a) eq_refl) as Ha. injection Ha as <-.
  pose proof (proj1 (IHr b) eq_refl) as Hb. injection Hb as <-.
  reflexivity.
Qed.

(** X3: on the postfix and the prefix token sequence of the same tree,
    [evaluatePostfix] and [evaluatePrefix] return the same number
    whenever one of them returns a number. *)
Theorem evaluators_agree_on_tree (e : Tree.expr) (v : float) :
  Tree.wellFormed e = true ->
  (evaluatePostfix (JS.join " " (Tree.postorder e)) = Ok v <->
   evaluatePrefix (JS.join " " (Tree.preorder e)) = Ok v).
Proof.
  intros Hwf. rewrite (run_postfix_tree e Hwf), (run_prefix_tree e Hwf).
  apply value_orders_agree.
Qed.

Lemma evaluators_agree_on_tree_witness :
  let e := (Tree.Node "*" (Tree.Node "+" (Tree.Leaf "2") (Tree.Leaf "3")) (Tree.Leaf "4")) in
  Tree.wellFormed e = true /\
  (evaluatePostfix (JS.join " " (Tree.postorder e)) = Ok 20%float <->
   evaluatePrefix (JS.join " " (Tree.preorder e)) = Ok 20%float).
Proof.
  split; [reflexivity|].
  apply (evaluators_agree_on_tree (Tree.Node "*" (Tree.Node "+" (Tree.Leaf "2") (Tree.Leaf "3")) (Tree.Leaf "4")) 20%float); reflexivity.
Defined.

(** ** Counting operands and operators *)

Lemma body_stack_size (body : list float -> string -> result (list float)) :
  body = postfixBody \/ body = prefixBody ->
  forall stack token stack',
    body stack token = Ok stack' ->
    List.length stack' + (if isOperator token then 1 else 0)
    = List.length stack + (if isNumberToken token then 1 else 0).
Proof.
  intros Hbody stack token stack'.
  assert (H : body stack token = postfixBody stack token
              \/ body stack token = prefixBody stack token)
    by (destruct Hbody as [-> | ->]; auto).
  unfold isNumberToken.
  destruct H as [-> | ->]; unfold postfixBody, prefixBody, operandToken;
    destruct (isOperator token); cbn [negb andb].
  1,3: destruct stack as [|x [|y below]]; try discriminate;
       match goal with |- context [performOperation ?a ?b ?t] =>
         destruct (performOperation a b t) end; cbn [bind]; try discriminate;
       intros [= <-]; cbn [List.length]; lia.
  all: destruct (JS.isNaN (JS.parseFloat token)); cbn [negb];
       [destruct (lettersOnly token); [discriminate|]|];
       intros [= <-]; cbn [List.length]; lia.
Qed.

Lemma forTokens_stack_size (body : list float -> string -> result (list float)) :
  body = postfixBody \/ body = prefixBody ->
  forall tokens stack stack',
    forTokens body tokens stack = Ok stack' ->
    List.length stack' + countIf isOperator tokens
    = List.length stack + countIf isNumberToken tokens.
Proof.
  intros Hbody. induction tokens as [|token rest IH]; intros stack stack';
    cbn [forTokens].
  - intros [= <-]. reflexivity.
  - destruct (body stack token) as [stack1|e] eqn:Hstep; cbn [bind];
      [|discriminate].
    intros Hrest. specialize (IH _ _ Hrest).
    pose proof (body_stack_size body Hbody _ _ _ Hstep) as H1.
    unfold countIf in *. cbn [filter].
    destruct (isOperator token), (isNumberToken token); cbn [List.length]; lia.
Qed.

Lemma countIf_rev (p : string -> bool) (tokens : list string) :
  countIf p (rev tokens) = countIf p tokens.
Proof.
  unfold countIf. induction tokens as [|t rest IH]; [reflexivity|].
  cbn [rev filter]. rewrite filter_app, length_app, IH. cbn [filter].
  destruct (p t); cbn [List.length]; lia.
Qed.

(** X4: when [evaluatePostfix] or [evaluatePrefix] returns a number, the
    tokens of its argument hold exactly one more numeric token than
    operator tokens. *)
Theorem evaluation_needs_one_more_operand :
  (forall postfix v,
      evaluatePostfix postfix = Ok v ->
      countIf isNumberToken (JS.split " " postfix)
      = S (countIf isOperator (JS.split " " postfix))) /\
  (forall prefix v,
      evaluatePrefix prefix = Ok v ->
      countIf isNumberToken (JS.split " " prefix)
      = S (countIf isOperator (JS.split " " prefix))).
Proof.
  split.
  - intros postfix v. unfold evaluatePostfix.
    destruct (forTokens postfixBody (JS.split " " postfix) []) as [stack|e] eqn:Hrun;
      cbn [bind]; [|discriminate].
    destruct stack as [|x [|y below]]; try discriminate. intros _.
    apply forTokens_stack_size in Hrun; [|now left].
    cbn [List.length] in Hrun. lia.
  - intros prefix v. unfold evaluatePrefix.
    destruct (forTokens prefixBody (rev (JS.split " " prefix)) []) as [stack|e] eqn:Hrun;
      cbn [bind]; [|discriminate].
    destruct stack as [|x [|y below]]; try discriminate. intros _.
    apply forTokens_stack_size in Hrun; [|now right].
    rewrite !countIf_rev in Hrun. cbn [List.length] in Hrun. lia.
Qed.

Lemma evaluation_needs_one_more_operand_witness :
  evaluatePostfix "2 3 + 4 *" = Ok 20%float /\
  countIf isNumberToken (JS.split " " "2 3 + 4 *")
  = S (countIf isOperator (JS.split " " "2 3 + 4 *")).
Proof.
  split; [reflexivity|].
  apply (proj1 evaluation_needs_one_more_operand "2 3 + 4 *"%string 20%float).
  reflexivity.
Defined.

(** ** Variables and inherited names *)

Lemma letter_not_space (c : ascii) :
  Char.isLetter c = true -> JS.isWhiteSpace c = false.
Proof. destruct c as [[] [] [] [] [] [] [] []]; try discriminate; reflexivity. Qed.

Lemma letters_parse_nan (token : string) :
  lettersOnly token = true ->
  String.prefix "Infinity" token = false ->
  JS.isNaN (JS.parseFloat token) = true.
Proof.
  destruct token as [|c r]; [discriminate|].
  unfold lettersOnly. cbn [Re.plus Re.all]. intros H Hinf.
  apply andb_prop in H as [Hc _].
  unfold JS.parseFloat. cbn [JS.trimStart].
  rewrite (letter_not_space c Hc), (letter_no_sign c r Hc), Hinf.
  cbn [JS.readDigits]. rewrite (letter_not_digit c Hc).
  pose proof (letter_not_dot c Hc) as Hdot.
  assert (Hfrac : match String c r with
                  | String "."%char r0 => JS.readDigits r0 0 0
                  | _ => (0%Z, 0%Z, String c r)
                  end = (0%Z, 0%Z, String c r)).
  { destruct c as [[] [] [] [] [] [] [] []]; try reflexivity; congruence. }
  rewrite Hfrac. reflexivity.
Qed.

Lemma forTokens_member_throws body (tokens : list string) (token : string) :
  In token tokens ->
  (forall stack, exists e, body stack token = Throw e) ->
  forall stack, exists e, forTokens body tokens stack = Throw e.
Proof.
  intros Hin Hthrow. induction tokens as [|t rest IH]; [contradiction|].
  intros stack. cbn [forTokens].
  destruct (body stack t) as [stack1|e] eqn:Hstep; cbn [bind]; [|now exists e].
  destruct Hin as [-> | Hin].
  - destruct (Hthrow stack) as [e He]. congruence.
  - apply (IH Hin).
Qed.

Lemma throw_bind_single (r : result (list float)) :
  (exists e, r = Throw e) -> exists e, (stack <- r ;; single stack) = Throw e.
Proof. intros [e ->]. now exists e. Qed.

(** X5: a token made of letters only that is not an operator name and
    does not start with "Infinity" makes both evaluators fail, wherever
    it stands among the tokens. *)
Theorem variable_never_evaluates (token : string) :
  isOperator token = false ->
  lettersOnly token = true ->
  String.prefix "Infinity" token = false ->
  (forall postfix, In token (JS.split " " postfix) ->
                   exists e, evaluatePostfix postfix = Throw e) /\
  (forall prefix, In token (JS.split " " prefix) ->
                  exists e, evaluatePrefix prefix = Throw e).
Proof.
  intros Hop Hletters Hinf.
  pose proof (letters_parse_nan token Hletters Hinf) as Hnan.
  split; intros s Hin; apply throw_bind_single.
  - apply (forTokens_member_throws postfixBody _ token Hin).
    intros stack. exists (UnboundVariable token).
    unfold postfixBody, operandToken. now rewrite Hop, Hnan, Hletters.
  - apply (forTokens_member_throws prefixBody _ token). { now apply in_rev in Hin. }
    intros stack. exists (UnboundVariable token).
    unfold prefixBody, operandToken. now rewrite Hop, Hnan, Hletters.
Qed.

Lemma variable_never_evaluates_witness :
  isOperator "x" = false /\ lettersOnly "x" = true /\
  String.prefix "Infinity" "x" = false /\
  In "x"%string (JS.split " " "x 2 +") /\
  exists e, evaluatePostfix "x 2 +" = Throw e.
Proof.
  do 3 (split; [reflexivity|]). split; [left; reflexivity|].
  apply (proj1 (variable_never_evaluates "x" eq_refl eq_refl eq_refl)).
  left; reflexivity.
Defined.

(** At a token that always throws, the loop ends with the error of an
    earlier token or with the error of this one. *)
Lemma forTokens_stops_at body (err : list float -> error)
    (before after : list string) (token : string) (stack : list float) :
  (forall s, body s token = Throw (err s)) ->
  forTokens body (before ++ token :: after) stack
  = match forTokens body before stack with
    | Ok s => Throw (err s)
    | Throw e => Throw e
    end.
Proof.
  intros Hbody. rewrite forTokens_app.
  destruct (forTokens body before stack) as [s|e]; cbn [bind]; [|reflexivity].
  cbn [forTokens]. now rewrite Hbody.
Qed.

Lemma inherited_name_body (token : string) :
  inList token JS.objectPrototypeKeys = true ->
  forall stack,
    postfixBody stack token = Throw (inheritedNameError token stack) /\
    prefixBody stack token = Throw (inheritedNameError token stack).
Proof.
  intros Hin.
  assert (Hop : isOperator token = true).
  { unfold isOperator. destruct (operators token); [reflexivity | exact Hin]. }
  assert (Hperf : forall a b, performOperation a b token = Throw (UnknownOperator token)).
  { intros a b. unfold inList, JS.objectPrototypeKeys in Hin. cbn [existsb] in Hin.
    repeat (apply orb_prop in Hin as [Hin|Hin];
            [apply String.eqb_eq in Hin; subst token; reflexivity|]).
    discriminate. }
  intros stack. unfold postfixBody, prefixBody. rewrite Hop.
  destruct stack as [|x [|y below]]; cbn [inheritedNameError]; try (now split).
  now rewrite !Hperf.
Qed.

(** X6: a token that is a property name inherited from
    [Object.prototype], such as "toString", is taken for an operator by
    the [in] test.  In both loop bodies it throws 'insufficient operands'
    when fewer than two values are on the stack and 'Unknown operator'
    otherwise; so an evaluator whose tokens hold such a name fails, with
    the error of an earlier token when one throws, and otherwise with
    one of these two errors, decided by the stack the tokens before it
    have built. *)
Theorem inherited_name_never_evaluates (token : string) :
  inList token JS.objectPrototypeKeys = true ->
  isOperator token = true /\
  (forall stack,
      postfixBody stack token = Throw (inheritedNameError token stack) /\
      prefixBody stack token = Throw (inheritedNameError token stack)) /\
  (forall postfix before after,
      JS.split " " postfix = before ++ token :: after ->
      evaluatePostfix postfix
      = match forTokens postfixBody before [] with
        | Ok stack => Throw (inheritedNameError token stack)
        | Throw e => Throw e
        end) /\
  (forall prefix before after,
      rev (JS.split " " prefix) = before ++ token :: after ->
      evaluatePrefix prefix
      = match forTokens prefixBody before [] with
        | Ok stack => Throw (inheritedNameError token stack)
        | Throw e => Throw e
        end) /\
  (forall postfix, In token (JS.split " " postfix) ->
                   exists e, evaluatePostfix postfix = Throw e) /\
  (forall prefix, In token (JS.split " " prefix) ->
                  exists e, evaluatePrefix prefix = Throw e).
Proof.
  intros Hin.
  pose proof (inherited_name_body token Hin) as Hbody.
  assert (Hop : isOperator token = true).
  { unfold isOperator. destruct (operators token); [reflexivity | exact Hin]. }
  split; [exact Hop|]. split; [exact Hbody|].
  assert (Hpost : forall postfix before after,
             JS.split " " postfix = before ++ token :: after ->
             evaluatePostfix postfix
             = match forTokens postfixBody before [] with
               | Ok stack => Throw (inheritedNameError token stack)
               | Throw e => Throw e
               end).
  { intros postfix before after Heq. unfold evaluatePostfix. rewrite Heq.
    rewrite (forTokens_stops_at postfixBody (inheritedNameError token))
      by (intros s; apply Hbody).
    destruct (forTokens postfixBody before []); reflexivity. }
  assert (Hpre : forall prefix before after,
             rev (JS.split " " prefix) = before ++ token :: after ->
             evaluatePrefix prefix
             = match forTokens prefixBody before [] with
               | Ok stack => Throw (inheritedNameError token stack)
               | Throw e => Throw e
               end).
  { intros prefix before after Heq. unfold evaluatePrefix. rewrite Heq.
    rewrite (forTokens_stops_at prefixBody (inheritedNameError token))
      by (intros s; apply Hbody).
    destruct (forTokens prefixBody before []); reflexivity. }
  split; [exact Hpost|]. split; [exact Hpre|]. split.
  - intros postfix Hmem. apply in_split in Hmem as (before & after & Heq).
    rewrite (Hpost postfix before after Heq).
    destruct (forTokens postfixBody before []) as [s|e]; eauto.
  - intros prefix Hmem. apply in_rev in Hmem.
    apply in_split in Hmem as (before & after & Heq).
    rewrite (Hpre prefix before after Heq).
    destruct (forTokens prefixBody before []) as [s|e]; eauto.
Qed.

Lemma inherited_name_never_evaluates_witness :
  inList "toString" JS.objectPrototypeKeys = true /\
  JS.split " " "1 2 toString" = ["1"; "2"]%string ++ "toString"%string :: [] /\
  evaluatePostfix "1 2 toString" = Throw (UnknownOperator "toString") /\
  JS.split " " "2 toString" = ["2"%string] ++ "toString"%string :: [] /\
  evaluatePostfix "2 toString" = Throw InsufficientOperands /\
  JS.split " " "x toString" = ["x"%string] ++ "toString"%string :: [] /\
  evaluatePostfix "x toString" = Throw (UnboundVariable "x").
Proof.
  split; [reflexivity|]. split; [reflexivity|]. split.
  { apply (proj1 (proj2 (proj2 (inherited_name_never_evaluates "toString" eq_refl)))
             "1 2 toString"%string ["1"; "2"]%string []).
    reflexivity. }
  split; [reflexivity|]. split.
  { apply (proj1 (proj2 (proj2 (inherited_name_never_evaluates "toString" eq_refl)))
             "2 toString"%string ["2"%string] []).
    reflexivity. }
  split; [reflexivity|].
  apply (proj1 (proj2 (proj2 (inherited_name_never_evaluates "toString" eq_refl)))
           "x toString"%string ["x"%string] []).
  reflexivity.
Defined.

(** ** The balance check in terms of counts *)

Lemma parenBalance_count (cs : list ascii) :
  parenBalance cs = (Z.of_nat (countChar "(" cs) - Z.of_nat (countChar ")" cs))%Z.
Proof.
  unfold countChar. induction cs as [|c r IH]; [reflexivity|].
  cbn [parenBalance filter]. rewrite IH.
  rewrite (Ascii.eqb_sym "(" c), (Ascii.eqb_sym ")" c).
  destruct (Ascii.eqb_spec c "(") as [H1|H1], (Ascii.eqb_spec c ")") as [H2|H2];
    try (subst; discriminate); cbn [List.length]; lia.
Qed.

Lemma balanceLoop_throw_prefix (expression : string) :
  forall balance e,
    balanceLoop expression balance = Throw e ->
    exists n, (balance + parenBalance (firstn n (chars expression)) < 0)%Z.
Proof.
  unfold chars.
  induction expression as [|c r IH]; intros b e;
    cbn [balanceLoop list_ascii_of_string]; [discriminate|].
  set (d := (if Ascii.eqb c "(" then 1 else if Ascii.eqb c ")" then -1 else 0)%Z).
  assert (Hstep : (if Ascii.eqb c "(" then b + 1
                   else if Ascii.eqb c ")" then b - 1 else b)%Z = (b + d)%Z).
  { subst d. destruct (Ascii.eqb c "("); [lia|].
    destruct (Ascii.eqb c ")"); lia. }
  rewrite Hstep. unfold throwIf.
  destruct (Z.ltb_spec (b + d) 0) as [Hneg|Hpos].
  - intros _. exists 1%nat. cbn [firstn parenBalance]. fold d. lia.
  - intros H. apply IH in H as [n Hn]. exists (S n).
    cbn [firstn parenBalance]. fold d. lia.
Qed.

Lemma balanceLoop_spec (expression : string) :
  forall balance balance',
    (0 <= balance)%Z ->
    balanceLoop expression balance = Ok balance' <->
    (forall n, (0 <= balance + parenBalance (firstn n (chars expression)))%Z) /\
    balance' = (balance + parenBalance (chars expression))%Z.
Proof.
  unfold chars.
  induction expression as [|c r IH]; intros b b' Hb;
    cbn [balanceLoop list_ascii_of_string].
  - split.
    + intros [= <-]. split; [|cbn; lia].
      intros n. rewrite firstn_nil. cbn. lia.
    + intros [_ ->]. cbn. f_equal. lia.
  - set (d := (if Ascii.eqb c "(" then 1 else if Ascii.eqb c ")" then -1 else 0)%Z).
    assert (Hstep : (if Ascii.eqb c "(" then b + 1
                     else if Ascii.eqb c ")" then b - 1 else b)%Z = (b + d)%Z).
    { subst d. destruct (Ascii.eqb c "("); [lia|].
      destruct (Ascii.eqb c ")"); lia. }
    rewrite Hstep. unfold throwIf.
    destruct (Z.ltb_spec (b + d) 0) as [Hneg|Hpos].
    + split; [discriminate|]. intros [Hall _].
      specialize (Hall 1%nat). cbn [firstn parenBalance] in Hall. fold d in Hall.
      lia.
    + rewrite (IH (b + d)%Z b' Hpos). cbn [parenBalance]. fold d.
      split; intros [Hall ->]; (split; [|lia]).
      * intros [|n]; cbn [firstn parenBalance]; [lia|].
        fold d. specialize (Hall n). lia.
      * intros n. specialize (Hall (S n)). cbn [firstn parenBalance] in Hall.
        fold d in Hall. lia.
Qed.

(** X7: on an input of allowed characters, [validateExpression] raises
    'Unmatched closing parenthesis' exactly when some prefix holds more
    ')' than '(', raises 'Unmatched opening parenthesis' exactly when no
    prefix does and the whole input holds more '(' than ')'; an accepted
    input has as many ')' as '(' and no prefix with more ')' than '('. *)
Theorem balance_check_counts (e : string) :
  validChars e = true ->
  (validateExpression e = Throw UnmatchedClosingParen <->
     exists n, countChar "(" (firstn n (chars e)) < countChar ")" (firstn n (chars e))) /\
  (validateExpression e = Throw UnmatchedOpeningParen <->
     (forall n, countChar ")" (firstn n (chars e)) <= countChar "(" (firstn n (chars e))) /\
     countChar ")" (chars e) < countChar "(" (chars e)) /\
  (validateExpression e = Ok tt ->
     (forall n, countChar ")" (firstn n (chars e)) <= countChar "(" (firstn n (chars e))) /\
     countChar ")" (chars e) = countChar "(" (chars e)).
Proof.
  intros Hchars.
  destruct (validate_throw e) as (_ & Hclose & Hopen & _).
  pose proof (balanceLoop_spec e 0 ) as Hspec.
  assert (Hprefix : forall b, balanceLoop e 0 = Ok b ->
            (forall n, countChar ")" (firstn n (chars e)) <= countChar "(" (firstn n (chars e)))
            /\ b = (Z.of_nat (countChar "(" (chars e)) - Z.of_nat (countChar ")" (chars e)))%Z).
  { intros b Hb. apply Hspec in Hb as [Hall ->]; [|lia]. split.
    - intros n. specialize (Hall n). rewrite parenBalance_count in Hall. lia.
    - rewrite parenBalance_count. lia. }
  split; [|split].
  - rewrite Hclose. split.
    + intros [_ Hthrow].
      apply balanceLoop_throw_prefix in Hthrow as [n Hn].
      exists n. rewrite parenBalance_count in Hn. lia.
    + intros [n Hn]. split; [exact Hchars|].
      destruct (balanceLoop e 0) as [b|err] eqn:Hb.
      * destruct (Hprefix b eq_refl) as [Hall _]. specialize (Hall n). lia.
      * apply balanceLoop_throw in Hb. now subst.
  - rewrite Hopen. split.
    + intros [_ (b & Hb & Hne)].
      pose proof (Hspec b ltac:(lia)) as Hs. apply Hs in Hb as Hb'.
      destruct Hb' as [Hall Heq].
      apply Hprefix in Hb as [Hp Hbv]. split; [exact Hp|].
      specialize (Hall (List.length (chars e))). rewrite firstn_all in Hall.
      rewrite parenBalance_count in Hall. lia.
    + intros [Hall Hlt]. split; [exact Hchars|].
      exists (0 + parenBalance (chars e))%Z. split.
      * apply Hspec; [lia|]. split; [|reflexivity].
        intros n. specialize (Hall n). rewrite parenBalance_count. lia.
      * rewrite parenBalance_count. lia.
  - intros Hok. apply validate_ok in Hok as (_ & Hb & _).
    apply Hprefix in Hb as [Hp Hbv]. split; [exact Hp | lia].
Qed.

Lemma balance_check_counts_witness :
  validChars "(2+3)*4" = true /\
  validateExpression "(2+3)*4" = Ok tt /\
  countChar ")" (chars "(2+3)*4") = countChar "(" (chars "(2+3)*4").
Proof.
  do 2 (split; [reflexivity|]).
  apply (proj2 (proj2 (balance_check_counts "(2+3)*4" eq_refl))); reflexivity.
Defined.

(** ** Two operators in a row *)

(** X8: an input in which two of the characters + - * / stand next to
    each other, a minus sign after an operator included, is never
    accepted; it fails the consecutive-operators check unless the
    character or the balance check fails first. *)
Theorem adjacent_operators_rejected (before after : string) (x y : ascii) :
  Char.isArith x = true ->
  Char.isArith y = true ->
  let e := (before ++ String x (String y after))%string in
  validateExpression e <> Ok tt /\
  validateExpression e <> Throw InvalidBoundary /\
  validateExpression e <> Throw EmptyParens /\
  (validChars e = true -> balanceLoop e 0 = Ok 0%Z ->
   validateExpression e = Throw ConsecutiveOperators).
Proof.
  intros Hx Hy e.
  assert (Hcons : consecutiveOperators e = true).
  { apply adjacent_spec. now exists before, x, y, after. }
  destruct (validate_throw e) as (_ & _ & _ & Hc & Hb & He).
  repeat split.
  - intros H. apply validate_ok in H as (_ & _ & H & _). congruence.
  - intros H. apply Hb in H as (_ & _ & H & _). congruence.
  - intros H. apply He in H as (_ & _ & H & _). congruence.
  - intros H1 H2. now apply Hc.
Qed.

Lemma adjacent_operators_rejected_witness :
  Char.isArith "*" = true /\ Char.isArith "-" = true /\
  validateExpression "3*-2" <> Ok tt.
Proof.
  do 2 (split; [reflexivity|]).
  apply (adjacent_operators_rejected "3" "2" "*" "-"); reflexivity.
Defined.

(** ** The input field *)

Lemma removeSpaces_trimStart (s : string) :
  removeSpaces (JS.trimStart s) = removeSpaces s.
Proof.
  induction s as [|c r IH]; [reflexivity|].
  cbn [JS.trimStart removeSpaces].
  destruct (JS.isWhiteSpace c) eqn:Hc; [exact IH|].
  cbn [removeSpaces]. now rewrite Hc.
Qed.

Lemma removeSpaces_trimEnd (s : string) :
  removeSpaces (trimEnd s) = removeSpaces s.
Proof.
  induction s as [|c r IH]; [reflexivity|].
  cbn [trimEnd removeSpaces].
  destruct (trimEnd r) as [|c' r'] eqn:Hr.
  - rewrite <- IH. cbn [removeSpaces].
    destruct (JS.isWhiteSpace c) eqn:Hc; [reflexivity|].
    unfold str. cbn [removeSpaces]. now rewrite Hc.
  - rewrite <- IH. reflexivity.
Qed.

Lemma removeSpaces_noSpace (s : string) : noSpace (removeSpaces s) = true.
Proof.
  unfold noSpace. induction s as [|c r IH]; [reflexivity|].
  cbn [removeSpaces]. destruct (JS.isWhiteSpace c) eqn:Hc; [exact IH|].
  cbn [Re.all]. now rewrite Hc, IH.
Qed.

Lemma removeSpaces_id (s : string) : noSpace s = true -> removeSpaces s = s.
Proof.
  unfold noSpace. induction s as [|c r IH]; [reflexivity|].
  cbn [Re.all removeSpaces]. intros H. apply andb_prop in H as [Hc Hr].
  apply negb_true_iff in Hc. now rewrite Hc, IH.
Qed.

Lemma trimEnd_id (s : string) : noSpace s = true -> trimEnd s = s.
Proof.
  unfold noSpace. induction s as [|c r IH]; [reflexivity|].
  cbn [Re.all trimEnd]. intros H. apply andb_prop in H as [Hc Hr].
  apply negb_true_iff in Hc. rewrite (IH Hr), Hc.
  destruct r; reflexivity.
Qed.

Lemma trim_id (s : string) : noSpace s = true -> trim s = s.
Proof.
  intros H. unfold trim.
  assert (Hs : JS.trimStart s = s).
  { destruct s as [|c r]; [reflexivity|]. unfold noSpace in H.
    cbn [Re.all] in H. apply andb_prop in H as [Hc _].
    apply negb_true_iff in Hc. cbn [JS.trimStart]. now rewrite Hc. }
  rewrite Hs. now apply trimEnd_id.
Qed.

Lemma removeSpaces_chars (s : string) :
  chars (removeSpaces s) = filter (fun c => negb (JS.isWhiteSpace c)) (chars s).
Proof.
  unfold chars. induction s as [|c r IH]; [reflexivity|].
  cbn [removeSpaces list_ascii_of_string filter].
  destruct (JS.isWhiteSpace c); cbn [negb list_ascii_of_string]; now rewrite IH.
Qed.

Lemma getInputValue_spec (value : string) :
  chars (getInputValue value)
    = filter (fun c => negb (JS.isWhiteSpace c)) (chars value) /\
  getInputValue (getInputValue value) = getInputValue value /\
  trim (getInputValue value) = getInputValue value.
Proof.
  assert (H : getInputValue value = removeSpaces value).
  { unfold getInputValue, trim.
    now rewrite removeSpaces_trimEnd, removeSpaces_trimStart. }
  rewrite H. split; [apply removeSpaces_chars|]. split.
  - unfold getInputValue, trim.
    rewrite removeSpaces_trimEnd, removeSpaces_trimStart.
    apply removeSpaces_id, removeSpaces_noSpace.
  - apply trim_id, removeSpaces_noSpace.
Qed.

(** X9: [getInputValue] returns the characters of the field that are not
    white space, in their order; applied to its own result it changes
    nothing, and its result is not changed by [trim]. *)
Theorem input_value_without_white_space (value : string) :
  chars (getInputValue value)
    = filter (fun c => negb (JS.isWhiteSpace c)) (chars value) /\
  getInputValue (getInputValue value) = getInputValue value /\
  trim (getInputValue value) = getInputValue value.
Proof. apply getInputValue_spec. Qed.

Lemma validate_empty : validateExpression EmptyString = Throw InvalidCharacter.
Proof. reflexivity. Qed.

(** X10: [handleConvert] asks for an input exactly when the field holds
    white space only (the empty field included); otherwise it shows the
    error of [validateExpression] on the field without its white space,
    or the two conversions of it when the validation passes; white space
    in the field does not change the outcome. *)
Theorem handleConvert_outcomes (value : string) :
  (handleConvert value = AskForInput <->
     forallb JS.isWhiteSpace (chars value) = true) /\
  (forall e, handleConvert value = ShowError e <->
     getInputValue value <> EmptyString /\
     validateExpression (getInputValue value) = Throw e) /\
  (forall postfix prefix, handleConvert value = ShowResults postfix prefix <->
     validateExpression (getInputValue value) = Ok tt /\
     postfix = infixToPostfix (getInputValue value) /\
     prefix = infixToPrefix (getInputValue value)) /\
  handleConvert (getInputValue value) = handleConvert value.
Proof.
  destruct (getInputValue_spec value) as (Hchars & Hidem & Htrim).
  assert (Hempty : getInputValue value = EmptyString <->
                   forallb JS.isWhiteSpace (chars value) = true).
  { assert (H : chars (getInputValue value) = [] <->
                forallb JS.isWhiteSpace (chars value) = true).
    { rewrite Hchars. generalize (chars value) as cs.
      induction cs as [|c r IH]; [now split|].
      cbn [filter forallb]. destruct (JS.isWhiteSpace c); cbn [negb andb].
      - exact IH.
      - split; discriminate. }
    rewrite <- H. unfold chars.
    destruct (getInputValue value); cbn; split; congruence. }
  unfold handleConvert. rewrite Hidem, Htrim.
  destruct (String.eqb_spec (getInputValue value) EmptyString) as [Heq|Hne].
  { split; [|split; [|split]].
    - split; intros _; [now apply Hempty | reflexivity].
    - intros e. split; [discriminate | intros [H _]; contradiction].
    - intros postfix prefix.
      split; [discriminate | intros [H _]; rewrite Heq in H; discriminate].
    - reflexivity. }
  assert (Hask : forall o : convertOutcome,
             o <> AskForInput ->
             o = AskForInput <-> forallb JS.isWhiteSpace (chars value) = true).
  { intros o Ho. split; [contradiction|].
    intros H. apply Hempty in H. contradiction. }
  destruct (validateExpression (getInputValue value)) as [[]|err] eqn:Hv.
  - split; [apply Hask; discriminate|]. split; [|split].
    + intros e. split; [discriminate | intros [_ H]; discriminate].
    + intros postfix prefix. split.
      * intros [= <- <-]. now repeat split.
      * intros (_ & -> & ->). reflexivity.
    + reflexivity.
  - split; [apply Hask; discriminate|]. split; [|split].
    + intros e. split.
      * intros [= <-]. now split.
      * intros [_ [= <-]]. reflexivity.
    + intros postfix prefix.
      split; [discriminate | intros [H _]; discriminate].
    + reflexivity.
Qed.

(** ** The conversion loop, iteration by iteration *)

Lemma get_nth_error (s : string) (i : nat) :
  String.get i s = nth_error (chars s) i.
Proof.
  unfold chars. revert i; induction s as [|c r IH]; intros [|i]; cbn; auto.
Qed.

Lemma chars_length (s : string) : List.length (chars s) = String.length s.
Proof. unfold chars. induction s; cbn; auto. Qed.

Lemma firstn_snoc {A : Type} (l : list A) (i : nat) (x : A) :
  nth_error l i = Some x -> firstn (S i) l = firstn i l ++ [x].
Proof.
  revert i; induction l as [|a l IH]; intros [|i]; cbn; try discriminate.
  - now intros [= ->].
  - intros H. now rewrite <- (IH i H).
Qed.

Lemma append_assoc (a b c : string) : ((a ++ b) ++ c = a ++ (b ++ c))%string.
Proof. induction a as [|x a IH]; cbn; [reflexivity | now rewrite IH]. Qed.

(** The inner loop reads a run [w] of operand characters and appends it
    to [operand]. *)
Lemma readOperand_spec (infix : string) :
  forall fuel i operand,
  exists w,
    readOperand fuel infix i operand
      = (i + List.length w, (operand ++ string_of_list_ascii w)%string) /\
    firstn (i + List.length w) (chars infix) = firstn i (chars infix) ++ w /\
    forallb isOperand w = true.
Proof.
  induction fuel as [|fuel IH]; intros i operand.
  - exists []. cbn. rewrite Nat.add_0_r, app_nil_r.
    assert (H : (operand ++ "")%string = operand)
      by (clear; induction operand; cbn; congruence).
    now rewrite H.
  - cbn [readOperand].
    destruct (String.get i infix) as [c|] eqn:Hget.
    2:{ exists []. cbn. rewrite Nat.add_0_r, app_nil_r.
        assert (H : (operand ++ "")%string = operand)
          by (clear; induction operand; cbn; congruence).
        now rewrite H. }
    destruct (isOperand c) eqn:Hop.
    2:{ exists []. cbn. rewrite Nat.add_0_r, app_nil_r.
        assert (H : (operand ++ "")%string = operand)
          by (clear; induction operand; cbn; congruence).
        now rewrite H. }
    destruct (IH (S i) (operand ++ str c)%string) as (w & Hread & Hfirst & Hall).
    exists (c :: w). cbn [List.length string_of_list_ascii forallb].
    rewrite Hread, Hop, Hall. repeat split.
    + f_equal; [lia|]. rewrite append_assoc. reflexivity.
    + replace (i + S (List.length w)) with (S i + List.length w) by lia.
      rewrite Hfirst. rewrite get_nth_error in Hget.
      rewrite (firstn_snoc _ _ _ Hget), <- app_assoc. reflexivity.
Qed.

Lemma popToParen_spec (out stack : list string) :
  exists moved rest,
    stack = moved ++ rest /\
    forallb notOpen moved = true /\
    popToParen out stack = (out ++ moved, rest) /\
    (rest = [] \/ exists rest', rest = "("%string :: rest').
Proof.
  revert out; induction stack as [|top below IH]; intros out.
  - exists [], []. cbn. rewrite app_nil_r. auto.
  - cbn [popToParen]. destruct (String.eqb_spec top "(") as [->|Hne]; cbn [negb].
    + exists [], ("("%string :: below). cbn. rewrite app_nil_r.
      repeat split; auto. right. now exists below.
    + destruct (IH (out ++ [top])) as (moved & rest & -> & Hall & Hpop & Hrest).
      exists (top :: moved), rest. cbn [forallb app]. unfold notOpen at 1.
      apply String.eqb_neq in Hne. rewrite Hne, Hall, Hpop, <- app_assoc.
      now repeat split.
Qed.

Lemma popWhile_spec pops (char : string) (out stack : list string) :
  exists moved rest,
    stack = moved ++ rest /\
    forallb notOpen moved = true /\
    popWhile pops char out stack = (out ++ moved, rest).
Proof.
  revert out; induction stack as [|top below IH]; intros out.
  - exists [], []. cbn. rewrite app_nil_r. auto.
  - cbn [popWhile].
    destruct (negb (String.eqb top "(")) eqn:Hne; cbn [andb].
    + destruct (pops top char).
      * destruct (IH (out ++ [top])) as (moved & rest & -> & Hall & Hpop).
        exists (top :: moved), rest. cbn [forallb app]. unfold notOpen at 1.
        rewrite Hne, Hall, Hpop, <- app_assoc. now repeat split.
      * exists [], (top :: below). cbn. rewrite app_nil_r. auto.
    + exists [], (top :: below). cbn. rewrite app_nil_r. auto.
Qed.

Lemma isOperator_char (c : ascii) : isOperator (str c) = Char.isArith c.
Proof. destruct c as [[] [] [] [] [] [] [] []]; reflexivity. Qed.

Lemma isArith_not_operand (c : ascii) :
  Char.isArith c = true -> isOperand c = false.
Proof. destruct c as [[] [] [] [] [] [] [] []]; try discriminate; reflexivity. Qed.

(** What one iteration does to the index, the output and the stack. *)
Lemma convBody_cases pops (infix : string) (char : ascii) (st : convState) :
  String.get (idx st) infix = Some char ->
  let st' := convBody pops infix char st in
  let cs := chars infix in
  (exists w,
      isOperand char = true /\ w <> [] /\ forallb isOperand w = true /\
      firstn (idx st') cs = firstn (idx st) cs ++ w /\
      output st' = output st ++ [string_of_list_ascii w] /\
      operatorStack st' = operatorStack st)
  \/
  (firstn (idx st') cs = firstn (idx st) cs ++ [char] /\
   isOperand char = false /\
   ((char = "("%char /\ output st' = output st /\
     operatorStack st' = "("%string :: operatorStack st)
    \/
    (char = ")"%char /\
     exists moved rest,
       operatorStack st = moved ++ rest /\ forallb notOpen moved = true /\
       output st' = output st ++ moved /\
       ((rest = [] /\ operatorStack st' = []) \/
        (exists rest', rest = "("%string :: rest' /\ operatorStack st' = rest')))
    \/
    (Char.isArith char = true /\
     exists moved rest,
       operatorStack st = moved ++ rest /\ forallb notOpen moved = true /\
       output st' = output st ++ moved /\
       operatorStack st' = str char :: rest)
    \/
    (char <> "("%char /\ char <> ")"%char /\ Char.isArith char = false /\
     output st' = output st /\ operatorStack st' = operatorStack st))).
Proof.
  intros Hget st' cs. subst st'. unfold convBody.
  pose proof Hget as Hnth. rewrite get_nth_error in Hnth. fold cs in Hnth.
  destruct (isOperand char) eqn:Hop.
  - left.
    destruct (String.length infix) as [|n] eqn:Hlen.
    { assert (String.get (idx st) infix = None)
        by (apply get_none_length; lia). congruence. }
    cbn [readOperand]. rewrite Hget, Hop.
    destruct (readOperand_spec infix n (S (idx st)) ("" ++ str char)%string)
      as (w & Hread & Hfirst & Hall).
    rewrite Hread. exists (char :: w). cbn [idx output operatorStack].
    repeat split.
    + discriminate.
    + cbn [forallb]. now rewrite Hop, Hall.
    + replace (S (S (idx st) + List.length w - 1)) with (S (idx st) + List.length w) by lia.
      fold cs in Hfirst. rewrite Hfirst, (firstn_snoc _ _ _ Hnth), <- app_assoc.
      reflexivity.
  - right. split.
    { assert (Hidx : idx (if Ascii.eqb char "(" then
                {| idx := S (idx st); output := output st;
                   operatorStack := str char :: operatorStack st |}
              else if Ascii.eqb char ")" then
                let '(out, stack) := popToParen (output st) (operatorStack st) in
                {| idx := S (idx st); output := out; operatorStack := dropTop stack |}
              else if isOperator (str char) then
                let '(out, stack) := popWhile pops (str char) (output st) (operatorStack st) in
                {| idx := S (idx st); output := out; operatorStack := str char :: stack |}
              else {| idx := S (idx st); output := output st;
                      operatorStack := operatorStack st |}) = S (idx st)).
      { destruct (Ascii.eqb char "("); [reflexivity|].
        destruct (Ascii.eqb char ")").
        - destruct (popToParen (output st) (operatorStack st)); reflexivity.
        - destruct (isOperator (str char)); [|reflexivity].
          destruct (popWhile pops (str char) (output st) (operatorStack st)); reflexivity. }
      rewrite Hidx. apply firstn_snoc, Hnth. }
    split; [reflexivity|].
    destruct (Ascii.eqb_spec char "(") as [->|Hno].
    { left. now repeat split. }
    right. destruct (Ascii.eqb_spec char ")") as [->|Hnc].
    { left. split; [reflexivity|].
      destruct (popToParen_spec (output st) (operatorStack st))
        as (moved & rest & Hst & Hall & Hpop & Hrest).
      rewrite Hpop. exists moved, rest. cbn [idx output operatorStack].
      repeat split; auto.
      destruct Hrest as [-> | [rest' ->]]; [left | right]; auto.
      now exists rest'. }
    right. rewrite isOperator_char.
    destruct (Char.isArith char) eqn:Har.
    { left. split; [reflexivity|].
      destruct (popWhile_spec pops (str char) (output st) (operatorStack st))
        as (moved & rest & Hst & Hall & Hpop).
      rewrite Hpop. exists moved, rest. now repeat split. }
    right. now repeat split.
Qed.

(** A property kept by every iteration holds when the loop ends, and
    then the whole input has been read. *)
Lemma convLoop_invariant pops (infix : string) (P : convState -> Prop) :
  (forall st char,
      P st -> String.get (idx st) infix = Some char ->
      P (convBody pops infix char st)) ->
  forall fuel st, P st -> P (convLoop fuel pops infix st).
Proof.
  intros Hstep. induction fuel as [|fuel IH]; intros st Hst; cbn [convLoop];
    [exact Hst|].
  destruct (String.get (idx st) infix) as [char|] eqn:Hget; [|exact Hst].
  apply IH, Hstep; assumption.
Qed.

Lemma convLoop_reads_all pops (infix : string) :
  let st := convLoop (String.length infix) pops infix convInit in
  firstn (idx st) (chars infix) = chars infix.
Proof.
  cbv zeta.
  pose proof (convLoop_exits pops infix (String.length infix) convInit
                ltac:(cbn; lia)) as H.
  apply get_none_length in H. apply firstn_all2. rewrite chars_length. exact H.
Qed.

(** ** Operators are neither lost nor added *)

Lemma countToken_app (t : string) (a b : list string) :
  countToken t (a ++ b) = countToken t a + countToken t b.
Proof. unfold countToken. now rewrite filter_app, length_app. Qed.

Lemma countChar_app (c : ascii) (a b : list ascii) :
  countChar c (a ++ b) = countChar c a + countChar c b.
Proof. unfold countChar. now rewrite filter_app, length_app. Qed.

Lemma string_of_chars_inj (w : list ascii) (c : ascii) :
  string_of_list_ascii w = str c -> w = [c].
Proof.
  destruct w as [|x [|y w]]; cbn; try discriminate.
  now intros [= ->].
Qed.

Lemma countToken_operand (c : ascii) (w : list ascii) :
  isOperand c = false -> forallb isOperand w = true ->
  countToken (str c) [string_of_list_ascii w] = 0.
Proof.
  intros Hc Hw. unfold countToken. cbn [filter].
  destruct (String.eqb_spec (str c) (string_of_list_ascii w)) as [Heq|_];
    [|reflexivity].
  symmetry in Heq. apply string_of_chars_inj in Heq. subst w.
  cbn in Hw. rewrite Hc in Hw. discriminate.
Qed.

Lemma countChar_operand (c : ascii) (w : list ascii) :
  isOperand c = false -> forallb isOperand w = true -> countChar c w = 0.
Proof.
  intros Hc. unfold countChar. induction w as [|x w IH]; [reflexivity|].
  cbn [forallb filter]. intros H. apply andb_prop in H as [Hx Hw].
  destruct (Ascii.eqb_spec c x) as [->|_]; [congruence | now apply IH].
Qed.

Lemma countToken_single (c x : ascii) :
  countToken (str c) [str x] = countChar c [x].
Proof.
  unfold countToken, countChar, str. cbn [filter].
  destruct (Ascii.eqb_spec c x) as [->|Hne].
  - now rewrite String.eqb_refl.
  - assert (H : String.eqb (String c "") (String x "") = false)
      by (apply String.eqb_neq; congruence).
    now rewrite H.
Qed.

Lemma operators_invariant pops (infix : string) (c : ascii) :
  Char.isArith c = true ->
  forall fuel,
    let st := convLoop fuel pops infix convInit in
    countToken (str c) (output st) + countToken (str c) (operatorStack st)
    = countChar c (firstn (idx st) (chars infix)).
Proof.
  intros Hc fuel.
  apply (convLoop_invariant pops infix
           (fun st => countToken (str c) (output st)
                      + countToken (str c) (operatorStack st)
                      = countChar c (firstn (idx st) (chars infix))));
    [|reflexivity].
  intros st char Hinv Hget.
  pose proof (isArith_not_operand c Hc) as Hnop.
  assert (Hopen : countToken (str c) ["("%string] = 0)
    by (destruct c as [[] [] [] [] [] [] [] []]; try discriminate; reflexivity).
  destruct (convBody_cases pops infix char st Hget)
    as [(w & Hop & Hne & Hall & Hfirst & Hout & Hstack)
       | (Hfirst & Hop & [(-> & Hout & Hstack)
                         | [(-> & moved & rest & Hst & Hmoved & Hout & Hrest)
                           | [(Har & moved & rest & Hst & Hmoved & Hout & Hstack)
                             | (Hno & Hnc & Har & Hout & Hstack)]]])].
  - rewrite Hfirst, Hout, Hstack, countToken_app, countChar_app.
    rewrite (countToken_operand c w Hnop Hall), (countChar_operand c w Hnop Hall).
    lia.
  - rewrite Hfirst, Hout, Hstack, countChar_app.
    change ("("%string :: operatorStack st) with (["("%string] ++ operatorStack st).
    rewrite countToken_app, Hopen.
    assert (H0 : countChar c ["("%char] = 0)
      by (destruct c as [[] [] [] [] [] [] [] []]; try discriminate; reflexivity).
    lia.
  - rewrite Hfirst, Hout, countChar_app, countToken_app.
    rewrite Hst, countToken_app in Hinv.
    assert (H0 : countChar c [")"%char] = 0)
      by (destruct c as [[] [] [] [] [] [] [] []]; try discriminate; reflexivity).
    destruct Hrest as [[-> ->] | (rest' & -> & ->)].
    + lia.
    + change ("("%string :: rest') with (["("%string] ++ rest') in Hinv.
      rewrite countToken_app, Hopen in Hinv. lia.
  - rewrite Hfirst, Hout, Hstack, countChar_app, countToken_app.
    rewrite Hst, countToken_app in Hinv.
    change (str char :: rest) with ([str char] ++ rest).
    rewrite countToken_app, countToken_single. lia.
  - rewrite Hfirst, Hout, Hstack, countChar_app.
    assert (H0 : countChar c [char] = 0).
    { unfold countChar. cbn [filter].
      destruct (Ascii.eqb_spec c char) as [->|_]; [congruence | reflexivity]. }
    lia.
Qed.

Lemma operators_conserved_tokens pops (infix : string) (c : ascii) :
  Char.isArith c = true ->
  countToken (str c) (convertTokens pops infix) = countChar c (chars infix).
Proof.
  intros Hc. unfold convertTokens.
  rewrite popRemaining_app, countToken_app.
  rewrite (operators_invariant pops infix c Hc (String.length infix)).
  now rewrite convLoop_reads_all.
Qed.

(** ** Operand characters keep their order *)








(** ** The shape of the tokens *)

Lemma all_string_of (p : ascii -> bool) (w : list ascii) :
  Re.all p (string_of_list_ascii w) = forallb p w.
Proof. induction w as [|c w IH]; cbn; [reflexivity | now rewrite IH]. Qed.

Lemma all_chars (p : ascii -> bool) (s : string) :
  Re.all p s = forallb p (chars s).
Proof. unfold chars. induction s as [|c s IH]; cbn; [reflexivity | now rewrite IH]. Qed.

Lemma operand_token_shape (w : list ascii) :
  w <> [] -> forallb isOperand w = true ->
  tokenShape (string_of_list_ascii w) = true.
Proof.
  intros Hne Hall. unfold tokenShape, isOperandToken.
  destruct w as [|c w]; [congruence|].
  change (Re.plus isOperand (string_of_list_ascii (c :: w)))
    with (Re.all isOperand (string_of_list_ascii (c :: w))).
  now rewrite all_string_of, Hall.
Qed.

Lemma operator_token_shape (c : ascii) :
  Char.isArith c = true -> tokenShape (str c) = true.
Proof. destruct c as [[] [] [] [] [] [] [] []]; try discriminate; reflexivity. Qed.

Lemma shapes_invariant pops (infix : string) :
  forall fuel,
    let st := convLoop fuel pops infix convInit in
    forallb tokenShape (output st) = true /\
    forallb tokenShape (operatorStack st) = true.
Proof.
  intros fuel.
  apply (convLoop_invariant pops infix
           (fun st => forallb tokenShape (output st) = true /\
                      forallb tokenShape (operatorStack st) = true));
    [|now split].
  intros st char [Hout0 Hst0] Hget.
  destruct (convBody_cases pops infix char st Hget)
    as [(w & Hop & Hne & Hall & Hfirst & Hout & Hstack)
       | (Hfirst & Hop & [(-> & Hout & Hstack)
                         | [(-> & moved & rest & Hst & Hmoved & Hout & Hrest)
                           | [(Har & moved & rest & Hst & Hmoved & Hout & Hstack)
                             | (Hno & Hnc & Har & Hout & Hstack)]]])].
  - rewrite Hout, Hstack, forallb_app, Hout0. cbn [forallb].
    now rewrite (operand_token_shape w Hne Hall).
  - rewrite Hout, Hstack. cbn [forallb]. now rewrite Hst0.
  - rewrite Hst, forallb_app in Hst0. apply andb_prop in Hst0 as [Hm Hr].
    rewrite Hout, forallb_app, Hout0, Hm. split; [reflexivity|].
    destruct Hrest as [[-> ->] | (rest' & -> & ->)]; [reflexivity|].
    cbn [forallb] in Hr. now apply andb_prop in Hr as [_ Hr].
  - rewrite Hst, forallb_app in Hst0. apply andb_prop in Hst0 as [Hm Hr].
    rewrite Hout, Hstack, forallb_app, Hout0, Hm. cbn [forallb].
    now rewrite (operator_token_shape char Har), Hr.
  - rewrite Hout, Hstack. now split.
Qed.

Lemma tokens_shaped pops (infix : string) :
  forallb tokenShape (convertTokens pops infix) = true.
Proof.
  unfold convertTokens. rewrite popRemaining_app, forallb_app.
  destruct (shapes_invariant pops infix (String.length infix)) as [-> ->].
  reflexivity.
Qed.

(** ** From one function to the next *)

Lemma operand_not_space (c : ascii) : isOperand c = true -> Ascii.eqb " " c = false.
Proof. destruct c as [[] [] [] [] [] [] [] []]; try discriminate; reflexivity. Qed.

Lemma shape_no_space (t : string) :
  tokenShape t = true -> Tree.hasSpace t = false.
Proof.
  unfold tokenShape. intros H. apply orb_prop in H as [H|H].
  - unfold isOperandToken in H. destruct t as [|c t]; [discriminate|].
    change (Re.plus isOperand (String c t)) with (Re.all isOperand (String c t)) in H.
    rewrite all_chars in H. unfold Tree.hasSpace.
    induction (chars (String c t)) as [|x l IH]; [reflexivity|].
    cbn [forallb existsb] in *. apply andb_prop in H as [Hx Hl].
    now rewrite (operand_not_space x Hx), IH.
  - unfold inList in H. cbn [existsb] in H.
    repeat (apply orb_prop in H as [H|H];
            [apply String.eqb_eq in H; subst t; reflexivity|]).
    discriminate.
Qed.

Lemma shapes_no_space (tokens : list string) :
  forallb tokenShape tokens = true ->
  forallb (fun t => negb (Tree.hasSpace t)) tokens = true.
Proof.
  induction tokens as [|t r IH]; [reflexivity|]. cbn [forallb].
  intros H. apply andb_prop in H as [Ht Hr].
  now rewrite (shape_no_space t Ht), IH.
Qed.

Lemma split_join_tokens (tokens : list string) :
  forallb tokenShape tokens = true ->
  JS.split " " (JS.join " " tokens)
  = match tokens with [] => [EmptyString] | _ => tokens end.
Proof.
  intros H. destruct tokens as [|t r]; [reflexivity|].
  apply split_join; [discriminate | now apply shapes_no_space].
Qed.

Lemma run_postfix_conversion pops (infix : string) :
  evaluatePostfix (convert pops infix)
  = (stack <- forTokens postfixBody (convertTokens pops infix) [] ;; single stack).
Proof.
  unfold evaluatePostfix.
  change (convert pops infix) with (JS.join " " (convertTokens pops infix)).
  rewrite (split_join_tokens _ (tokens_shaped pops infix)).
  destruct (convertTokens pops infix); reflexivity.
Qed.

Lemma infixToPrefix_as_tokens (infix : string) :
  infixToPrefix infix
  = JS.join " " (rev (convertTokens popsPrefix (swapParens (JS.reverseChars infix)))).
Proof.
  unfold infixToPrefix, infixToPostfixForPrefix.
  set (reversed := swapParens (JS.reverseChars infix)).
  change (convert popsPrefix reversed)
    with (JS.join " " (convertTokens popsPrefix reversed)).
  rewrite (split_join_tokens _ (tokens_shaped popsPrefix reversed)).
  destruct (convertTokens popsPrefix reversed); reflexivity.
Qed.


(** X13: the strings handed from one function to the next carry exactly
    the token arrays.  Every token a conversion produces is an operand,
    "(" or one of the four operators; splitting the returned string at
    the spaces gives these tokens back (one empty token when there is
    none); [evaluatePostfix] of the returned string runs its loop on
    these tokens; and [infixToPrefix] returns the tokens of its helper on
    the reversed input in reverse order. *)
Theorem conversion_tokens pops (infix : string) :
  forallb tokenShape (convertTokens pops infix) = true /\
  JS.split " " (convert pops infix)
  = match convertTokens pops infix with
    | [] => [EmptyString]
    | tokens => tokens
    end /\
  evaluatePostfix (convert pops infix)
  = (stack <- forTokens postfixBody (convertTokens pops infix) [] ;; single stack) /\
  infixToPrefix infix
  = JS.join " " (rev (convertTokens popsPrefix (swapParens (JS.reverseChars infix)))).
Proof.
  split; [apply tokens_shaped|]. split; [|split].
  - change (convert pops infix) with (JS.join " " (convertTokens pops infix)).
    rewrite (split_join_tokens _ (tokens_shaped pops infix)).
    destruct (convertTokens pops infix); reflexivity.
  - apply run_postfix_conversion.
  - apply infixToPrefix_as_tokens.
Qed.

(** ** Parentheses do not reach the output of an accepted expression *)

Lemma parenBalance_app (a b : list ascii) :
  parenBalance (a ++ b) = (parenBalance a + parenBalance b)%Z.
Proof.
  induction a as [|c a IH]; cbn [app parenBalance]; [lia | rewrite IH; lia].
Qed.

Lemma parenBalance_operand (w : list ascii) :
  forallb isOperand w = true -> parenBalance w = 0%Z.
Proof.
  induction w as [|c w IH]; [reflexivity|]. cbn [forallb parenBalance].
  intros H. apply andb_prop in H as [Hc Hw]. rewrite (IH Hw).
  destruct c as [[] [] [] [] [] [] [] []]; try discriminate; reflexivity.
Qed.

Lemma countToken_notOpen (moved : list string) :
  forallb notOpen moved = true -> countToken "(" moved = 0.
Proof.
  unfold countToken, notOpen. induction moved as [|t r IH]; [reflexivity|].
  cbn [forallb filter]. intros H. apply andb_prop in H as [Ht Hr].
  apply negb_true_iff in Ht. rewrite String.eqb_sym, Ht. now apply IH.
Qed.

Lemma open_paren_invariant pops (infix : string) :
  (forall n, (0 <= parenBalance (firstn n (chars infix)))%Z) ->
  forall fuel,
    let st := convLoop fuel pops infix convInit in
    countToken "(" (output st) = 0 /\
    Z.of_nat (countToken "(" (operatorStack st))
    = parenBalance (firstn (idx st) (chars infix)).
Proof.
  intros Hbal fuel.
  apply (convLoop_invariant pops infix
           (fun st => countToken "(" (output st) = 0 /\
                      Z.of_nat (countToken "(" (operatorStack st))
                      = parenBalance (firstn (idx st) (chars infix))));
    [|now split].
  intros st char [Hout0 Hst0] Hget.
  pose proof (Hbal (idx (convBody pops infix char st))) as Hnext.
  destruct (convBody_cases pops infix char st Hget)
    as [(w & Hop & Hne & Hall & Hfirst & Hout & Hstack)
       | (Hfirst & Hop & [(-> & Hout & Hstack)
                         | [(-> & moved & rest & Hst & Hmoved & Hout & Hrest)
                           | [(Har & moved & rest & Hst & Hmoved & Hout & Hstack)
                             | (Hno & Hnc & Har & Hout & Hstack)]]])];
    rewrite Hfirst, parenBalance_app in *.
  - pose proof (countToken_operand "(" w eq_refl Hall) as Hw0.
    change (str "(") with "("%string in Hw0.
    rewrite Hout, Hstack, countToken_app, Hout0, Hw0, (parenBalance_operand w Hall).
    split; lia.
  - rewrite Hout, Hstack.
    change ("("%string :: operatorStack st) with (["("%string] ++ operatorStack st).
    rewrite countToken_app. change (countToken "(" ["("%string]) with 1.
    change (parenBalance ["("%char]) with 1%Z. split; lia.
  - rewrite Hst, countToken_app, (countToken_notOpen moved Hmoved) in Hst0.
    rewrite Hout, countToken_app, Hout0, (countToken_notOpen moved Hmoved).
    change (parenBalance [")"%char]) with (-1)%Z in *.
    destruct Hrest as [[-> ->] | (rest' & -> & ->)].
    + cbn in Hst0. lia.
    + change ("("%string :: rest') with (["("%string] ++ rest') in Hst0.
      rewrite countToken_app in Hst0. change (countToken "(" ["("%string]) with 1 in Hst0.
      split; lia.
  - rewrite Hst, countToken_app, (countToken_notOpen moved Hmoved) in Hst0.
    rewrite Hout, Hstack, countToken_app, Hout0, (countToken_notOpen moved Hmoved).
    change (str char :: rest) with ([str char] ++ rest).
    rewrite countToken_app.
    assert (H1 : countToken "(" [str char] = 0)
      by (destruct char as [[] [] [] [] [] [] [] []]; try discriminate; reflexivity).
    assert (H2 : parenBalance [char] = 0%Z)
      by (destruct char as [[] [] [] [] [] [] [] []]; try discriminate; reflexivity).
    split; lia.
  - rewrite Hout, Hstack.
    assert (H2 : parenBalance [char] = 0%Z).
    { cbn [parenBalance].
      destruct (Ascii.eqb_spec char "("); [contradiction|].
      destruct (Ascii.eqb_spec char ")"); [contradiction | reflexivity]. }
    split; lia.
Qed.

Lemma operand_not_paren (c : ascii) : isOperand c = true -> isParen c = false.
Proof. destruct c as [[] [] [] [] [] [] [] []]; try discriminate; reflexivity. Qed.

Lemma shaped_token_parenFree (t : string) :
  tokenShape t = true -> String.eqb "(" t = false -> parenFree t = true.
Proof.
  unfold tokenShape. intros H Hne. apply orb_prop in H as [H|H].
  - unfold isOperandToken in H. destruct t as [|c t]; [discriminate|].
    change (Re.plus isOperand (String c t)) with (Re.all isOperand (String c t)) in H.
    unfold parenFree. clear Hne.
    induction (String c t) as [|x s IH]; [reflexivity|].
    cbn [Re.all] in *. apply andb_prop in H as [Hx Hs].
    now rewrite (operand_not_paren x Hx), IH.
  - unfold inList in H. cbn [existsb] in H.
    apply orb_prop in H as [H|H].
    { apply String.eqb_eq in H. subst t. discriminate. }
    repeat (apply orb_prop in H as [H|H];
            [apply String.eqb_eq in H; subst t; reflexivity|]).
    discriminate.
Qed.

Lemma join_parenFree (tokens : list string) :
  forallb parenFree tokens = true -> parenFree (JS.join " " tokens) = true.
Proof.
  induction tokens as [|t r IH]; [reflexivity|]. cbn [forallb].
  intros H. apply andb_prop in H as [Ht Hr].
  destruct r as [|u r]; [exact Ht|].
  change (JS.join " " (t :: u :: r))
    with (t ++ " " ++ JS.join " " (u :: r))%string.
  unfold parenFree in *. rewrite !all_app, Ht, (IH Hr). reflexivity.
Qed.

Lemma no_open_tokens_parenFree (tokens : list string) :
  forallb tokenShape tokens = true ->
  countToken "(" tokens = 0 ->
  forallb parenFree tokens = true.
Proof.
  unfold countToken. induction tokens as [|t r IH]; [reflexivity|].
  cbn [forallb filter]. intros H Hc. apply andb_prop in H as [Ht Hr].
  destruct (String.eqb "(" t) eqn:Heq; [discriminate|].
  now rewrite (shaped_token_parenFree t Ht Heq), IH.
Qed.

Lemma balanced_tokens_no_open pops (infix : string) :
  (forall n, (0 <= parenBalance (firstn n (chars infix)))%Z) ->
  parenBalance (chars infix) = 0%Z ->
  countToken "(" (convertTokens pops infix) = 0.
Proof.
  intros Hpre Htot. unfold convertTokens.
  rewrite popRemaining_app, countToken_app.
  destruct (open_paren_invariant pops infix Hpre (String.length infix)) as [Hout Hst].
  rewrite convLoop_reads_all, Htot in Hst. lia.
Qed.

(** X14: for an input accepted by [validateExpression], the strings
    returned by [infixToPostfix] and by [infixToPostfixForPrefix] contain
    no parenthesis. *)
Theorem accepted_postfix_parenFree (e : string) :
  validateExpression e = Ok tt ->
  parenFree (infixToPostfix e) = true /\
  parenFree (infixToPostfixForPrefix e) = true.
Proof.
  intros Hok. apply validate_ok in Hok as (_ & Hbal & _).
  apply balanceLoop_spec in Hbal as [Hpre Htot]; [|lia].
  assert (Hpre' : forall n, (0 <= parenBalance (firstn n (chars e)))%Z)
    by (intros n; specialize (Hpre n); lia).
  assert (Htot' : parenBalance (chars e) = 0%Z) by lia.
  split; apply join_parenFree, no_open_tokens_parenFree;
    try apply tokens_shaped;
    now apply balanced_tokens_no_open.
Qed.

Lemma accepted_postfix_parenFree_witness :
  validateExpression "(2+3)*4" = Ok tt /\
  parenFree (infixToPostfix "(2+3)*4") = true.
Proof.
  split; [reflexivity|].
  apply (accepted_postfix_parenFree "(2+3)*4"); reflexivity.
Defined.

(** ** Exchanging the parentheses *)

Lemma prefix_nil (s : string) : String.prefix EmptyString s = true.
Proof. destruct s; reflexivity. Qed.

Lemma prefix_cons (a b : ascii) (p s : string) :
  String.prefix (String a p) (String b s)
  = if Ascii.eqb a b then String.prefix p s else false.
Proof.
  cbn [String.prefix].
  destruct (ascii_dec a b) as [->|Hne].
  - now rewrite Ascii.eqb_refl.
  - apply Ascii.eqb_neq in Hne. now rewrite Hne.
Qed.

Lemma replace_cons (pat rep : string) (c : ascii) (r : string) :
  JS.replaceFrom pat rep 0 (String c r)
  = if String.prefix pat (String c r)
    then (rep ++ JS.replaceFrom pat rep (String.length pat - 1) r)%string
    else String c (JS.replaceFrom pat rep 0 r).
Proof. reflexivity. Qed.

Lemma replace_skip (pat rep : string) (k : nat) (c : ascii) (r : string) :
  JS.replaceFrom pat rep (S k) (String c r) = JS.replaceFrom pat rep k r.
Proof. reflexivity. Qed.

Lemma pass12_cons (c : ascii) (r : string) :
  pass12 (String c r) =
    if Ascii.eqb c "(" then ("TEMP" ++ pass12 r)%string
    else if Ascii.eqb c ")" then String "(" (pass12 r)
    else String c (pass12 r).
Proof.
  unfold pass12, JS.replaceAll.
  rewrite replace_cons, prefix_cons, prefix_nil, (Ascii.eqb_sym "(" c).
  destruct (Ascii.eqb_spec c "(") as [->|Hno].
  { change (String.length "(" - 1) with 0.
    change ("TEMP" ++ JS.replaceFrom "(" "TEMP" 0 r)%string
      with (String "T" (String "E" (String "M" (String "P"
              (JS.replaceFrom "(" "TEMP" 0 r))))).
    do 4 (rewrite replace_cons, prefix_cons; cbn [Ascii.eqb Bool.eqb]).
    reflexivity. }
  rewrite replace_cons, prefix_cons, prefix_nil, (Ascii.eqb_sym ")" c).
  destruct (Ascii.eqb_spec c ")") as [->|Hnc]; reflexivity.
Qed.

Lemma prefix_pass12 (p : string) :
  Re.all plain p = true ->
  forall r, String.prefix p (pass12 r) = String.prefix p r.
Proof.
  induction p as [|x p IH]; intros Hp r.
  - now rewrite !prefix_nil.
  - cbn [Re.all] in Hp. apply andb_prop in Hp as [Hx Hp].
    unfold plain in Hx. apply negb_true_iff in Hx.
    apply orb_false_elim in Hx as [Hx Hx3]. apply orb_false_elim in Hx as [Hx1 Hx2].
    destruct r as [|c r]; [reflexivity|].
    rewrite pass12_cons, prefix_cons.
    destruct (Ascii.eqb_spec c "(") as [->|Hno].
    { change ("TEMP" ++ pass12 r)%string
        with (String "T" (String "E" (String "M" (String "P" (pass12 r))))).
      now rewrite prefix_cons, Hx1, Hx2. }
    destruct (Ascii.eqb_spec c ")") as [->|Hnc].
    { now rewrite prefix_cons, Hx2, Hx3. }
    rewrite prefix_cons. destruct (Ascii.eqb x c); [apply IH, Hp | reflexivity].
Qed.

Lemma swapParens_map (s : string) :
  containsTEMP s = false -> swapParens s = mapChars swapChar s.
Proof.
  change (swapParens s) with (JS.replaceAll "TEMP" ")" (pass12 s)).
  unfold JS.replaceAll.
  induction s as [|c r IH]; [reflexivity|].
  cbn [containsTEMP]. intros H. apply orb_false_elim in H as [Hpre Hr].
  specialize (IH Hr). rewrite pass12_cons. cbn [mapChars]. unfold swapChar.
  destruct (Ascii.eqb_spec c "(") as [->|Hno].
  { change ("TEMP" ++ pass12 r)%string
      with (String "T" (String "E" (String "M" (String "P" (pass12 r))))).
    rewrite replace_cons, !prefix_cons, prefix_nil. cbn [Ascii.eqb Bool.eqb].
    change (String.length "TEMP" - 1) with 3.
    rewrite !replace_skip, IH. reflexivity. }
  destruct (Ascii.eqb_spec c ")") as [->|Hnc].
  { rewrite replace_cons, prefix_cons. cbn [Ascii.eqb Bool.eqb]. now rewrite IH. }
  rewrite replace_cons.
  assert (Hp : String.prefix "TEMP" (String c (pass12 r)) = false).
  { rewrite prefix_cons in *. destruct (Ascii.eqb "T" c); [|reflexivity].
    rewrite (prefix_pass12 "EMP" eq_refl). exact Hpre. }
  now rewrite Hp, IH.
Qed.

(** ** The prefix conversion *)

Lemma chars_mapChars (f : ascii -> ascii) (s : string) :
  chars (mapChars f s) = map f (chars s).
Proof. unfold chars. induction s as [|c s IH]; cbn; [reflexivity | now rewrite IH]. Qed.

Lemma chars_reverse (s : string) : chars (JS.reverseChars s) = rev (chars s).
Proof. unfold chars, JS.reverseChars. apply list_ascii_of_string_of_list_ascii. Qed.

Lemma chars_app (a b : string) : chars (a ++ b) = chars a ++ chars b.
Proof. unfold chars. induction a as [|c a IH]; cbn; [reflexivity | now rewrite IH]. Qed.

Lemma countChar_rev (c : ascii) (l : list ascii) :
  countChar c (rev l) = countChar c l.
Proof.
  induction l as [|x l IH]; [reflexivity|]. cbn [rev].
  rewrite countChar_app, IH. change (x :: l) with ([x] ++ l).
  rewrite countChar_app. lia.
Qed.

Lemma countToken_rev (t : string) (l : list string) :
  countToken t (rev l) = countToken t l.
Proof.
  induction l as [|x l IH]; [reflexivity|]. cbn [rev].
  rewrite countToken_app, IH. change (x :: l) with ([x] ++ l).
  rewrite countToken_app. lia.
Qed.

Lemma prefix_TEMP (s : string) :
  String.prefix "TEMP" s = true -> exists s', s = ("TEMP" ++ s')%string.
Proof.
  destruct s as [|a [|b [|c [|d s']]]]; try discriminate.
  - rewrite prefix_cons. destruct (Ascii.eqb "T" a); discriminate.
  - rewrite !prefix_cons. destruct (Ascii.eqb "T" a), (Ascii.eqb "E" b); discriminate.
  - rewrite !prefix_cons.
    destruct (Ascii.eqb "T" a), (Ascii.eqb "E" b), (Ascii.eqb "M" c); discriminate.
  - rewrite !prefix_cons.
    destruct (Ascii.eqb_spec "T" a) as [<-|]; [|discriminate].
    destruct (Ascii.eqb_spec "E" b) as [<-|]; [|discriminate].
    destruct (Ascii.eqb_spec "M" c) as [<-|]; [|discriminate].
    destruct (Ascii.eqb_spec "P" d) as [<-|]; [|discriminate].
    intros _. now exists s'.
Qed.

Lemma pass12_app (a b : string) :
  pass12 (a ++ b) = (pass12 a ++ pass12 b)%string.
Proof.
  induction a as [|c a IH]; [reflexivity|].
  change (String c a ++ b)%string with (String c (a ++ b)).
  rewrite !pass12_cons, IH.
  destruct (Ascii.eqb c "("); [|destruct (Ascii.eqb c ")")]; reflexivity.
Qed.

Lemma prefix_TEMP_app (a : ascii) (x z : string) :
  startsWithT z = true ->
  String.prefix "TEMP" (String a x ++ z) = String.prefix "TEMP" (String a x).
Proof.
  intros Hz.
  assert (Hz0 : forall p c, c <> "T"%char ->
             String.prefix (String c p) z = false).
  { intros p c Hc. destruct z as [|t z]; [reflexivity|].
    cbn [startsWithT] in Hz. apply Ascii.eqb_eq in Hz. subst t.
    rewrite prefix_cons. apply Ascii.eqb_neq in Hc. now rewrite Hc. }
  assert (Hnil : forall p c, String.prefix (String c p) EmptyString = false)
    by reflexivity.
  destruct x as [|b [|c [|d x]]]; cbn [append].
  - rewrite !prefix_cons, Hnil. destruct (Ascii.eqb "T" a); [|reflexivity].
    apply Hz0. discriminate.
  - rewrite !prefix_cons, Hnil. destruct (Ascii.eqb "T" a); [|reflexivity].
    destruct (Ascii.eqb "E" b); [|reflexivity].
    apply Hz0. discriminate.
  - rewrite !prefix_cons, Hnil. destruct (Ascii.eqb "T" a); [|reflexivity].
    destruct (Ascii.eqb "E" b); [|reflexivity].
    destruct (Ascii.eqb "M" c); [|reflexivity].
    apply Hz0. discriminate.
  - rewrite !prefix_cons, !prefix_nil. reflexivity.
Qed.

(** The last replacement goes through a concatenation whose second part
    starts with 'T': no match lies across the seam. *)
Lemma pass3_app (z : string) :
  startsWithT z = true ->
  forall n x, String.length x <= n ->
    JS.replaceFrom "TEMP" ")" 0 (x ++ z)
    = (JS.replaceFrom "TEMP" ")" 0 x ++ JS.replaceFrom "TEMP" ")" 0 z)%string.
Proof.
  intros Hz. induction n as [|n IH]; intros x Hlen.
  - destruct x; [reflexivity | cbn in Hlen; lia].
  - destruct x as [|c r]; [reflexivity|].
    change (String c r ++ z)%string with (String c (r ++ z)).
    rewrite !replace_cons.
    change (String c (r ++ z)) with (String c r ++ z)%string.
    rewrite (prefix_TEMP_app c r z Hz).
    destruct (String.prefix "TEMP" (String c r)) eqn:Hp.
    + apply prefix_TEMP in Hp as [x' Heq].
      change ("TEMP" ++ x')%string
        with (String "T" (String "E" (String "M" (String "P" x')))) in Heq.
      injection Heq as -> ->.
      change (String.length "TEMP" - 1) with 3.
      change (String "E" (String "M" (String "P" x')) ++ z)%string
        with (String "E" (String "M" (String "P" (x' ++ z)))).
      rewrite !replace_skip.
      rewrite IH by (cbn in Hlen; lia). reflexivity.
    + rewrite IH by (cbn in Hlen; lia). reflexivity.
Qed.

(** X16: on a string that does not contain "TEMP", the three
    replacements of [infixToPrefix] exchange '(' and ')' character by
    character and change nothing else; every "TEMP" already in the
    string, wherever it stands, is itself replaced by ')', the parts
    before and after it being treated on their own. *)
Theorem swapParens_exchanges :
  (forall s, containsTEMP s = false -> swapParens s = mapChars swapChar s) /\
  (forall a b,
      swapParens (a ++ "TEMP" ++ b)
      = (swapParens a ++ ")" ++ swapParens b)%string) /\
  swapParens "1+TEMP" = "1+)"%string.
Proof.
  split; [apply swapParens_map|]. split; [|reflexivity].
  intros a b.
  change (swapParens (a ++ "TEMP" ++ b))
    with (JS.replaceFrom "TEMP" ")" 0 (pass12 (a ++ "TEMP" ++ b))).
  rewrite pass12_app.
  change (pass12 ("TEMP" ++ b))
    with (pass12 (String "T" (String "E" (String "M" (String "P" b))))).
  rewrite !pass12_cons. cbn [Ascii.eqb Bool.eqb].
  rewrite (pass3_app (String "T" (String "E" (String "M" (String "P" (pass12 b)))))
             eq_refl (String.length (pass12 a)) (pass12 a) (le_n _)).
  rewrite (replace_cons "TEMP" ")" "T"), !prefix_cons, prefix_nil.
  cbn [Ascii.eqb Bool.eqb].
  change (String.length "TEMP" - 1) with 3. rewrite !replace_skip.
  reflexivity.
Qed.

Lemma swapParens_exchanges_witness :
  containsTEMP ")a+b(" = false /\
  swapParens ")a+b(" = mapChars swapChar ")a+b(".
Proof.
  split; [reflexivity|].
  apply (proj1 swapParens_exchanges ")a+b("%string); reflexivity.
Defined.

Lemma countChar_pass3 (c : ascii) :
  Char.isArith c = true ->
  forall n s, String.length s <= n ->
    countChar c (chars (JS.replaceFrom "TEMP" ")" 0 s)) = countChar c (chars s).
Proof.
  intros Hc. induction n as [|n IH]; intros s Hlen.
  - destruct s; [reflexivity | cbn in Hlen; lia].
  - destruct s as [|x r]; [reflexivity|].
    rewrite replace_cons.
    destruct (String.prefix "TEMP" (String x r)) eqn:Hp.
    + apply prefix_TEMP in Hp as [s' Heq].
      change ("TEMP" ++ s')%string
        with (String "T" (String "E" (String "M" (String "P" s')))) in Heq.
      injection Heq as -> ->.
      change (String.length "TEMP" - 1) with 3. rewrite !replace_skip.
      change (String "T" (String "E" (String "M" (String "P" s'))))
        with ("TEMP" ++ s')%string.
      rewrite !chars_app, !countChar_app, IH by (cbn in Hlen; lia).
      destruct c as [[] [] [] [] [] [] [] []]; try discriminate; reflexivity.
    + change (String x (JS.replaceFrom "TEMP" ")" 0 r))
        with (str x ++ JS.replaceFrom "TEMP" ")" 0 r)%string.
      change (String x r) with (str x ++ r)%string.
      rewrite !chars_app, !countChar_app, IH by (cbn in Hlen; lia).
      reflexivity.
Qed.

Lemma countChar_pass12 (c : ascii) (s : string) :
  Char.isArith c = true ->
  countChar c (chars (pass12 s)) = countChar c (chars s).
Proof.
  intros Hc. induction s as [|x r IH]; [reflexivity|].
  rewrite pass12_cons.
  assert (Hcons : forall y l, countChar c (y :: l) = countChar c [y] + countChar c l).
  { intros y l. change (y :: l) with ([y] ++ l). apply countChar_app. }
  change (chars (String x r)) with (x :: chars r). rewrite (Hcons x).
  destruct (Ascii.eqb_spec x "(") as [->|Hno].
  { rewrite chars_app, countChar_app, IH.
    destruct c as [[] [] [] [] [] [] [] []]; try discriminate; reflexivity. }
  destruct (Ascii.eqb_spec x ")") as [->|Hnc].
  { change (chars (String "(" (pass12 r))) with ("("%char :: chars (pass12 r)).
    rewrite (Hcons "("%char), IH.
    destruct c as [[] [] [] [] [] [] [] []]; try discriminate; reflexivity. }
  change (chars (String x (pass12 r))) with (x :: chars (pass12 r)).
  now rewrite (Hcons x), IH.
Qed.

Lemma countChar_swapParens (c : ascii) (s : string) :
  Char.isArith c = true ->
  countChar c (chars (swapParens s)) = countChar c (chars s).
Proof.
  intros Hc.
  change (swapParens s) with (JS.replaceFrom "TEMP" ")" 0 (pass12 s)).
  rewrite (countChar_pass3 c Hc (String.length (pass12 s)) _ (le_n _)).
  now apply countChar_pass12.
Qed.

Lemma forallb_rev {A : Type} (p : A -> bool) (l : list A) :
  forallb p (rev l) = forallb p l.
Proof.
  induction l as [|x l IH]; [reflexivity|]. cbn [rev forallb].
  rewrite forallb_app, IH. cbn [forallb]. rewrite andb_true_r. apply andb_comm.
Qed.

Lemma countToken_split_join (c : ascii) (tokens : list string) :
  forallb tokenShape tokens = true ->
  countToken (str c) (JS.split " " (JS.join " " tokens)) = countToken (str c) tokens.
Proof.
  intros H. rewrite (split_join_tokens tokens H).
  destruct tokens; reflexivity.
Qed.

(** X11: each of the operators + - * / occurs as a token of the result
    of [infixToPostfix], and of [infixToPrefix], exactly as often as it
    occurs as a character of the input. *)
Theorem operators_conserved_strings (c : ascii) (infix : string) :
  Char.isArith c = true ->
  countToken (str c) (JS.split " " (infixToPostfix infix)) = countChar c (chars infix) /\
  countToken (str c) (JS.split " " (infixToPrefix infix)) = countChar c (chars infix).
Proof.
  intros Hc. split.
  - change (infixToPostfix infix)
      with (JS.join " " (convertTokens popsPostfix infix)).
    rewrite countToken_split_join by apply tokens_shaped.
    now apply operators_conserved_tokens.
  - rewrite infixToPrefix_as_tokens.
    rewrite countToken_split_join
      by (rewrite forallb_rev; apply tokens_shaped).
    rewrite countToken_rev, (operators_conserved_tokens _ _ c Hc).
    rewrite (countChar_swapParens c _ Hc), chars_reverse.
    apply countChar_rev.
Qed.

Lemma operators_conserved_strings_witness :
  Char.isArith "+" = true /\
  countToken "+" (JS.split " " (infixToPostfix "1+2*3+4")) = 2 /\
  countToken "+" (JS.split " " (infixToPrefix "1+2*3+4")) = 2.
Proof.
  split; [reflexivity|].
  apply (operators_conserved_strings "+"%char "1+2*3+4"%string); reflexivity.
Defined.

Lemma parenBalance_rev (l : list ascii) : parenBalance (rev l) = parenBalance l.
Proof.
  induction l as [|x l IH]; [reflexivity|]. cbn [rev].
  rewrite parenBalance_app, IH. change (x :: l) with ([x] ++ l).
  rewrite parenBalance_app. lia.
Qed.

Lemma parenBalance_swap (l : list ascii) :
  parenBalance (map swapChar l) = (- parenBalance l)%Z.
Proof.
  induction l as [|x l IH]; [reflexivity|]. cbn [map parenBalance].
  rewrite IH. unfold swapChar.
  destruct (Ascii.eqb_spec x "(") as [->|Hno]; [cbn [Ascii.eqb Bool.eqb]; lia|].
  destruct (Ascii.eqb_spec x ")") as [->|Hnc]; [cbn [Ascii.eqb Bool.eqb]; lia|].
  apply Ascii.eqb_neq in Hno, Hnc. rewrite Hno, Hnc. lia.
Qed.

(** The mirror image of a string with matched parentheses has matched
    parentheses. *)
Lemma mirror_balanced (cs : list ascii) :
  (forall n, (0 <= parenBalance (firstn n cs))%Z) ->
  parenBalance cs = 0%Z ->
  (forall n, (0 <= parenBalance (firstn n (map swapChar (rev cs))))%Z) /\
  parenBalance (map swapChar (rev cs)) = 0%Z.
Proof.
  intros Hpre Htot. split.
  - intros n. rewrite firstn_map, parenBalance_swap, firstn_rev, parenBalance_rev.
    pose proof (firstn_skipn (List.length cs - n) cs) as Hsplit.
    pose proof (f_equal parenBalance Hsplit) as Hsum.
    rewrite parenBalance_app in Hsum.
    specialize (Hpre (List.length cs - n)). lia.
  - rewrite parenBalance_swap, parenBalance_rev. lia.
Qed.

(** X15: for an input accepted by [validateExpression] that, read
    backwards, does not contain "TEMP", the string returned by
    [infixToPrefix] contains no parenthesis. *)
Theorem accepted_prefix_parenFree (e : string) :
  validateExpression e = Ok tt ->
  containsTEMP (JS.reverseChars e) = false ->
  parenFree (infixToPrefix e) = true.
Proof.
  intros Hok Htemp. apply validate_ok in Hok as (_ & Hbal & _).
  apply balanceLoop_spec in Hbal as [Hpre Htot]; [|lia].
  assert (Hpre' : forall n, (0 <= parenBalance (firstn n (chars e)))%Z)
    by (intros n; specialize (Hpre n); lia).
  assert (Htot' : parenBalance (chars e) = 0%Z) by lia.
  destruct (mirror_balanced (chars e) Hpre' Htot') as [Hmpre Hmtot].
  rewrite infixToPrefix_as_tokens, (swapParens_map _ Htemp).
  set (mirror := mapChars swapChar (JS.reverseChars e)).
  assert (Hchars : chars mirror = map swapChar (rev (chars e)))
    by (unfold mirror; now rewrite chars_mapChars, chars_reverse).
  apply join_parenFree. rewrite forallb_rev.
  apply no_open_tokens_parenFree; [apply tokens_shaped|].
  apply balanced_tokens_no_open; rewrite Hchars; assumption.
Qed.

Lemma accepted_prefix_parenFree_witness :
  validateExpression "(2+3)*4" = Ok tt /\
  containsTEMP (JS.reverseChars "(2+3)*4") = false /\
  parenFree (infixToPrefix "(2+3)*4") = true.
Proof.
  do 2 (split; [reflexivity|]).
  apply (accepted_prefix_parenFree "(2+3)*4"); reflexivity.
Defined.

(** ** Fully parenthesised expressions *)

Lemma convLoop_done pops (infix : string) (st : convState) :
  String.get (idx st) infix = None ->
  forall fuel, convLoop fuel pops infix st = st.
Proof. intros H [|fuel]; cbn [convLoop]; [reflexivity | now rewrite H]. Qed.

Lemma convLoop_plus pops (infix : string) :
  forall a b st,
    convLoop (a + b) pops infix st = convLoop b pops infix (convLoop a pops infix st).
Proof.
  induction a as [|a IH]; intros b st; [reflexivity|].
  cbn [Nat.add convLoop].
  destruct (String.get (idx st) infix) as [char|] eqn:Hget; [apply IH|].
  symmetry. now apply convLoop_done.
Qed.

Lemma convLoop_one pops (infix : string) (st : convState) (char : ascii) :
  String.get (idx st) infix = Some char ->
  convLoop 1 pops infix st = convBody pops infix char st.
Proof. intros H. cbn [convLoop]. now rewrite H. Qed.

Lemma get_middle (infix : string) (pre post : list ascii) (c : ascii) :
  chars infix = pre ++ c :: post ->
  String.get (List.length pre) infix = Some c.
Proof.
  intros H. rewrite get_nth_error, H, nth_error_app2 by lia.
  now rewrite Nat.sub_diag.
Qed.

Lemma append_nil_r (s : string) : (s ++ "")%string = s.
Proof. induction s; cbn; congruence. Qed.

(** The inner loop on a run [w] of operand characters that ends where
    [post] begins. *)
Lemma readOperand_run (infix : string) (post : list ascii) :
  stopsOperand post = true ->
  forall w pre fuel operand,
    chars infix = pre ++ w ++ post ->
    forallb isOperand w = true ->
    List.length w <= fuel ->
    readOperand fuel infix (List.length pre) operand
    = (List.length pre + List.length w, (operand ++ string_of_list_ascii w)%string).
Proof.
  intros Hpost. induction w as [|c w IH]; intros pre fuel operand Hchars Hall Hfuel.
  - cbn [app] in Hchars. cbn [List.length string_of_list_ascii].
    rewrite Nat.add_0_r, append_nil_r.
    destruct fuel as [|fuel]; [reflexivity|]. cbn [readOperand].
    destruct post as [|x post].
    + assert (Hnone : String.get (List.length pre) infix = None).
      { apply get_none_length. rewrite <- chars_length, Hchars, app_nil_r. lia. }
      now rewrite Hnone.
    + rewrite (get_middle infix pre post x Hchars).
      cbn [stopsOperand] in Hpost. apply negb_true_iff in Hpost. now rewrite Hpost.
  - cbn [forallb] in Hall. apply andb_prop in Hall as [Hc Hw].
    destruct fuel as [|fuel]; [cbn in Hfuel; lia|]. cbn [readOperand].
    rewrite (get_middle infix pre (w ++ post) c Hchars), Hc.
    assert (Hchars' : chars infix = (pre ++ [c]) ++ w ++ post)
      by (rewrite <- app_assoc; exact Hchars).
    pose proof (IH (pre ++ [c]) fuel (operand ++ str c)%string Hchars' Hw
                  ltac:(cbn in Hfuel; lia)) as Hrun.
    rewrite length_app in Hrun. cbn [List.length] in Hrun.
    replace (List.length pre + 1) with (S (List.length pre)) in Hrun by lia.
    rewrite Hrun. cbn [List.length string_of_list_ascii].
    f_equal; [lia|]. now rewrite append_assoc.
Qed.

Lemma chars_cons (c : ascii) (s : string) : chars (String c s) = c :: chars s.
Proof. reflexivity. Qed.

Lemma chars_of_string (s : string) : string_of_list_ascii (chars s) = s.
Proof. apply string_of_list_ascii_of_string. Qed.

Lemma operator_is_char (operator : string) :
  inList operator ["+"; "-"; "*"; "/"] = true ->
  exists c, operator = str c /\ Char.isArith c = true.
Proof.
  unfold inList. cbn [existsb]. intros H.
  repeat (apply orb_prop in H as [H|H];
          [apply String.eqb_eq in H; subst operator;
           eexists; split; reflexivity|]).
  discriminate.
Qed.

(** Reading the fully parenthesised form of a tree appends the postfix
    tokens of the tree to the output and leaves the stack as it was. *)
Lemma convert_segment pops (e : Tree.expr) :
  Tree.renderable e = true ->
  forall infix pre post st,
    chars infix = pre ++ chars (Tree.render e) ++ post ->
    stopsOperand post = true ->
    idx st = List.length pre ->
    exists k,
      convLoop k pops infix st
      = {| idx := List.length pre + List.length (chars (Tree.render e));
           output := output st ++ Tree.postorder e;
           operatorStack := operatorStack st |}.
Proof.
  induction e as [token|operator lhs IHl rhs IHr];
    cbn [Tree.renderable Tree.render Tree.postorder];
    intros Hwf infix pre post st Hchars Hpost Hidx.
  - exists 1.
    unfold isOperandToken in Hwf.
    destruct token as [|c token]; [discriminate|].
    change (Re.plus isOperand (String c token))
      with (Re.all isOperand (String c token)) in Hwf.
    rewrite all_chars in Hwf.
    assert (Hget : String.get (idx st) infix = Some c).
    { rewrite Hidx. apply (get_middle infix pre (chars token ++ post) c).
      exact Hchars. }
    rewrite (convLoop_one pops infix st c Hget). unfold convBody.
    pose proof Hwf as Hall. cbn [chars list_ascii_of_string forallb] in Hwf.
    apply andb_prop in Hwf as [Hc _]. rewrite Hc, Hidx.
    assert (Hfuel : List.length (chars (String c token)) <= String.length infix).
    { rewrite <- (chars_length infix), Hchars, !length_app. lia. }
    rewrite (readOperand_run infix post Hpost (chars (String c token)) pre
               (String.length infix) EmptyString Hchars Hall Hfuel).
    rewrite chars_of_string. cbn [append].
    f_equal. cbn [chars list_ascii_of_string List.length]. lia.
  - apply andb_prop in Hwf as [Hwf Hr]. apply andb_prop in Hwf as [Hop Hl].
    destruct (operator_is_char operator Hop) as (c & -> & Hc).
    pose proof (isArith_not_operand c Hc) as Hcop.
    destruct (isArith_not_paren c Hc) as (_ & _ & Hc3 & Hc4).
    assert (Hform : chars infix
                    = pre ++ "("%char :: chars (Tree.render lhs)
                          ++ c :: chars (Tree.render rhs) ++ ")"%char :: post).
    { rewrite Hchars. f_equal.
      change ("(" ++ Tree.render lhs ++ str c ++ Tree.render rhs ++ ")")%string
        with (String "(" (Tree.render lhs ++ String c (Tree.render rhs ++ ")")))%string.
      rewrite chars_cons, chars_app, chars_cons, chars_app.
      change (chars ")") with [")"%char].
      cbn [app]. rewrite <- !app_assoc. cbn [app]. rewrite <- !app_assoc.
      reflexivity. }
    assert (Hlen : List.length (chars ("(" ++ Tree.render lhs ++ str c
                                        ++ Tree.render rhs ++ ")")%string)
                   = S (List.length (chars (Tree.render lhs))
                        + S (List.length (chars (Tree.render rhs)) + 1))).
    { change ("(" ++ Tree.render lhs ++ str c ++ Tree.render rhs ++ ")")%string
        with (String "(" (Tree.render lhs ++ String c (Tree.render rhs ++ ")")))%string.
      rewrite chars_cons, chars_app, chars_cons, chars_app.
      change (chars ")") with [")"%char].
      cbn [List.length]. rewrite !length_app. cbn [List.length].
      rewrite !length_app. cbn [List.length]. lia. }
    rewrite Hlen. clear Hlen Hchars.
    set (L := chars (Tree.render lhs)) in *.
    set (R := chars (Tree.render rhs)) in *.
    (* "(" *)
    assert (Hget1 : String.get (idx st) infix = Some "("%char)
      by (rewrite Hidx; exact (get_middle infix pre _ _ Hform)).
    pose proof (convLoop_one pops infix st _ Hget1) as Hstep1.
    unfold convBody in Hstep1.
    change (isOperand "(") with false in Hstep1.
    change (Ascii.eqb "(" "(") with true in Hstep1. cbv iota in Hstep1.
    set (st1 := {| idx := S (idx st); output := output st;
                   operatorStack := str "(" :: operatorStack st |}) in *.
    (* left operand *)
    assert (Hform1 : chars infix = (pre ++ ["("%char]) ++ L ++ c :: R ++ ")"%char :: post)
      by (rewrite Hform, <- app_assoc; reflexivity).
    destruct (IHl Hl infix (pre ++ ["("%char]) (c :: R ++ ")"%char :: post) st1
                Hform1 ltac:(cbn [stopsOperand]; now rewrite Hcop)
                ltac:(cbn [idx st1]; rewrite length_app, Hidx; cbn; lia))
      as [kl Hrunl].
    fold L in Hrunl.
    set (st2 := {| idx := List.length (pre ++ ["("%char]) + List.length L;
                   output := output st1 ++ Tree.postorder lhs;
                   operatorStack := operatorStack st1 |}) in *.
    (* operator *)
    assert (Hform2 : chars infix = (pre ++ ["("%char] ++ L) ++ c :: R ++ ")"%char :: post)
      by (rewrite Hform, <- !app_assoc; reflexivity).
    assert (Hget2 : String.get (idx st2) infix = Some c).
    { replace (idx st2) with (List.length (pre ++ ["("%char] ++ L))
        by (cbn [idx st2]; rewrite !length_app; lia).
      exact (get_middle infix _ _ _ Hform2). }
    pose proof (convLoop_one pops infix st2 _ Hget2) as Hstep2.
    unfold convBody in Hstep2.
    rewrite Hcop, Hc3, Hc4, isOperator_char, Hc in Hstep2.
    cbn [operatorStack st2 st1 popWhile] in Hstep2.
    change (negb (String.eqb (str "(") "(")) with false in Hstep2.
    cbn [andb] in Hstep2.
    set (st3 := {| idx := S (idx st2); output := output st2;
                   operatorStack := str c :: str "(" :: operatorStack st |}) in *.
    (* right operand *)
    assert (Hform3 : chars infix = (pre ++ ["("%char] ++ L ++ [c]) ++ R ++ ")"%char :: post)
      by (rewrite Hform, <- !app_assoc; reflexivity).
    destruct (IHr Hr infix (pre ++ ["("%char] ++ L ++ [c]) (")"%char :: post) st3
                Hform3 eq_refl
                ltac:(cbn [idx st3 st2]; rewrite !length_app; cbn; lia))
      as [kr Hrunr].
    fold R in Hrunr.
    set (st4 := {| idx := List.length (pre ++ ["("%char] ++ L ++ [c]) + List.length R;
                   output := output st3 ++ Tree.postorder rhs;
                   operatorStack := operatorStack st3 |}) in *.
    (* ")" *)
    assert (Hform4 : chars infix = (pre ++ ["("%char] ++ L ++ [c] ++ R) ++ ")"%char :: post)
      by (rewrite Hform, <- !app_assoc; reflexivity).
    assert (Hget4 : String.get (idx st4) infix = Some ")"%char).
    { replace (idx st4) with (List.length (pre ++ ["("%char] ++ L ++ [c] ++ R))
        by (cbn [idx st4]; rewrite !length_app; cbn; lia).
      exact (get_middle infix _ _ _ Hform4). }
    pose proof (convLoop_one pops infix st4 _ Hget4) as Hstep4.
    unfold convBody in Hstep4.
    change (isOperand ")") with false in Hstep4.
    change (Ascii.eqb ")" "(") with false in Hstep4.
    change (Ascii.eqb ")" ")") with true in Hstep4. cbv iota in Hstep4.
    cbn [operatorStack st4 st3 popToParen] in Hstep4.
    assert (Hneq : negb (String.eqb (str c) "(") = true).
    { destruct c as [[] [] [] [] [] [] [] []]; try discriminate; reflexivity. }
    rewrite Hneq in Hstep4.
    change (negb (String.eqb (str "(") "(")) with false in Hstep4.
    cbn [dropTop] in Hstep4.
    exists (1 + (kl + (1 + (kr + 1)))).
    rewrite convLoop_plus, Hstep1, convLoop_plus, Hrunl, convLoop_plus, Hstep2,
      convLoop_plus, Hrunr, Hstep4.
    cbn [idx output operatorStack st4 st3 st2 st1].
    f_equal.
    + repeat (rewrite length_app; cbn [List.length]). lia.
    + now rewrite <- !app_assoc.
Qed.

Lemma convert_render pops (e : Tree.expr) :
  Tree.renderable e = true ->
  convertTokens pops (Tree.render e) = Tree.postorder e.
Proof.
  intros Hwf. unfold convertTokens.
  set (infix := Tree.render e).
  destruct (convert_segment pops e Hwf infix [] [] convInit
              ltac:(cbn [app]; now rewrite app_nil_r) eq_refl eq_refl)
    as [k Hrun].
  fold infix in Hrun. cbn [List.length Nat.add output operatorStack convInit app] in Hrun.
  assert (Hend : convLoop (String.length infix) pops infix convInit
                 = convLoop k pops infix convInit).
  { assert (H1 : convLoop (k + String.length infix) pops infix convInit
                 = convLoop k pops infix convInit).
    { rewrite convLoop_plus. apply convLoop_done. rewrite Hrun. cbn [idx].
      apply get_none_length. rewrite chars_length. lia. }
    rewrite <- H1, Nat.add_comm, convLoop_plus.
    symmetry. apply convLoop_done.
    apply (convLoop_exits pops infix (String.length infix) convInit). cbn. lia. }
  rewrite Hend, Hrun. cbn [output operatorStack]. rewrite popRemaining_app.
  apply app_nil_r.
Qed.

Lemma renderable_wellFormed_tokens (e : Tree.expr) :
  Tree.renderable e = true ->
  forallb tokenShape (Tree.postorder e) = true /\
  forallb tokenShape (Tree.preorder e) = true.
Proof.
  induction e as [token|operator lhs IHl rhs IHr]; cbn [Tree.renderable]; intros H.
  - cbn [Tree.postorder Tree.preorder forallb]. unfold tokenShape. now rewrite H.
  - apply andb_prop in H as [H Hr]. apply andb_prop in H as [Hop Hl].
    destruct (IHl Hl) as [Hl1 Hl2]. destruct (IHr Hr) as [Hr1 Hr2].
    assert (Hs : tokenShape operator = true).
    { destruct (operator_is_char operator Hop) as (c & -> & Hc).
      now apply operator_token_shape. }
    cbn [Tree.postorder Tree.preorder forallb]. split.
    + rewrite !forallb_app, Hl1, Hr1. cbn [forallb]. now rewrite Hs.
    + now rewrite forallb_app, Hs, Hl2, Hr2.
Qed.

(** X17: for a tree of operands and the four operators, both conversion
    loops turn the fully parenthesised infix form of the tree into its
    postfix token sequence, joined by single spaces. *)
Theorem postfix_of_parenthesised (e : Tree.expr) :
  Tree.renderable e = true ->
  infixToPostfix (Tree.render e) = JS.join " " (Tree.postorder e) /\
  infixToPostfixForPrefix (Tree.render e) = JS.join " " (Tree.postorder e).
Proof.
  intros Hwf. split.
  - change (infixToPostfix (Tree.render e))
      with (JS.join " " (convertTokens popsPostfix (Tree.render e))).
    now rewrite convert_render.
  - change (infixToPostfixForPrefix (Tree.render e))
      with (JS.join " " (convertTokens popsPrefix (Tree.render e))).
    now rewrite convert_render.
Qed.

Lemma postfix_of_parenthesised_witness :
  let e := (Tree.Node "*" (Tree.Node "+" (Tree.Leaf "2") (Tree.Leaf "3")) (Tree.Leaf "4")) in
  Tree.renderable e = true /\
  infixToPostfix (Tree.render e) = JS.join " " (Tree.postorder e).
Proof.
  split; [reflexivity|].
  apply (postfix_of_parenthesised (Tree.Node "*" (Tree.Node "+" (Tree.Leaf "2") (Tree.Leaf "3")) (Tree.Leaf "4"))); reflexivity.
Defined.

Lemma postfix_value_render (e : Tree.expr) :
  Tree.renderable e = true ->
  Tree.wellFormed e = true ->
  evaluatePostfix (infixToPostfix (Tree.render e)) = Tree.value e.
Proof.
  intros Hr Hwf.
  change (infixToPostfix (Tree.render e))
    with (convert popsPostfix (Tree.render e)).
  rewrite run_postfix_conversion, (convert_render _ e Hr).
  rewrite (postfix_tree_tokens e Hwf). apply bind_single.
Qed.

(** X18: for a tree of numeric operands and the four operators,
    [evaluatePostfix] of [infixToPostfix] of the fully parenthesised form
    is the value of the tree, its errors included. *)
Theorem postfix_value_of_parenthesised (e : Tree.expr) :
  Tree.renderable e = true ->
  Tree.wellFormed e = true ->
  evaluatePostfix (infixToPostfix (Tree.render e)) = Tree.value e.
Proof. apply postfix_value_render. Qed.

Lemma postfix_value_of_parenthesised_witness :
  let e := (Tree.Node "*" (Tree.Node "+" (Tree.Leaf "2") (Tree.Leaf "3")) (Tree.Leaf "4")) in
  Tree.renderable e = true /\
  Tree.wellFormed e = true /\
  evaluatePostfix (infixToPostfix (Tree.render e)) = Tree.value e.
Proof.
  do 2 (split; [reflexivity|]).
  apply (postfix_value_of_parenthesised (Tree.Node "*" (Tree.Node "+" (Tree.Leaf "2") (Tree.Leaf "3")) (Tree.Leaf "4"))); reflexivity.
Defined.

(** *** The mirror image of a fully parenthesised expression *)

Lemma swap_operand_chars (l : list ascii) :
  forallb isOperand l = true -> map swapChar l = l.
Proof.
  induction l as [|c l IH]; [reflexivity|]. cbn [forallb map].
  intros H. apply andb_prop in H as [Hc Hl]. rewrite (IH Hl). f_equal.
  destruct c as [[] [] [] [] [] [] [] []]; try discriminate; reflexivity.
Qed.

Lemma chars_render_node (c : ascii) (lhs rhs : Tree.expr) :
  chars (Tree.render (Tree.Node (str c) lhs rhs))
  = "("%char :: chars (Tree.render lhs) ++ c :: chars (Tree.render rhs) ++ [")"%char].
Proof.
  cbn [Tree.render].
  change ("(" ++ Tree.render lhs ++ str c ++ Tree.render rhs ++ ")")%string
    with (String "(" (Tree.render lhs ++ String c (Tree.render rhs ++ ")")))%string.
  now rewrite chars_cons, chars_app, chars_cons, chars_app.
Qed.

Lemma mirror_renderable (e : Tree.expr) :
  Tree.renderable e = true -> Tree.renderable (Tree.mirror e) = true.
Proof.
  induction e as [token|operator lhs IHl rhs IHr];
    cbn [Tree.renderable Tree.mirror]; intros H.
  - unfold isOperandToken in *. destruct token as [|c token]; [discriminate|].
    change (Re.plus isOperand (String c token))
      with (Re.all isOperand (String c token)) in H.
    rewrite all_chars in H.
    assert (Hrev : Re.all isOperand (JS.reverseChars (String c token)) = true)
      by (rewrite all_chars, chars_reverse, forallb_rev; exact H).
    destruct (JS.reverseChars (String c token)) eqn:Heq; [|exact Hrev].
    apply (f_equal chars) in Heq. rewrite chars_reverse in Heq.
    apply (f_equal (@List.length ascii)) in Heq. rewrite length_rev in Heq.
    discriminate.
  - apply andb_prop in H as [H Hr]. apply andb_prop in H as [Hop Hl].
    now rewrite Hop, (IHl Hl), (IHr Hr).
Qed.

Lemma renderable_operand_leaf (token : string) :
  isOperandToken token = true -> forallb isOperand (chars token) = true.
Proof.
  unfold isOperandToken. destruct token as [|c token]; [discriminate|].
  change (Re.plus isOperand (String c token))
    with (Re.all isOperand (String c token)).
  now rewrite all_chars.
Qed.

Lemma mirror_render (e : Tree.expr) :
  Tree.renderable e = true ->
  map swapChar (rev (chars (Tree.render e))) = chars (Tree.render (Tree.mirror e)).
Proof.
  induction e as [token|operator lhs IHl rhs IHr];
    cbn [Tree.renderable]; intros H.
  - cbn [Tree.render Tree.mirror]. rewrite chars_reverse.
    apply swap_operand_chars. rewrite forallb_rev.
    now apply renderable_operand_leaf.
  - apply andb_prop in H as [H Hr]. apply andb_prop in H as [Hop Hl].
    destruct (operator_is_char operator Hop) as (c & -> & Hc).
    cbn [Tree.mirror]. rewrite !chars_render_node, <- (IHl Hl), <- (IHr Hr).
    assert (Hrev : forall L R : list ascii,
               rev ("("%char :: L ++ c :: R ++ [")"%char])
               = ")"%char :: rev R ++ c :: rev L ++ ["("%char]).
    { intros L R. cbn [rev]. rewrite rev_app_distr. cbn [rev].
      rewrite rev_app_distr. cbn [rev app]. rewrite <- !app_assoc. reflexivity. }
    rewrite Hrev. cbn [map]. rewrite map_app. cbn [map]. rewrite map_app.
    assert (Hswap : swapChar c = c).
    { destruct c as [[] [] [] [] [] [] [] []]; try discriminate; reflexivity. }
    rewrite Hswap. reflexivity.
Qed.

Lemma rev_postorder_mirror (e : Tree.expr) :
  rev (Tree.postorder (Tree.mirror e)) = Tree.preorder (Tree.reverseLeaves e).
Proof.
  induction e as [token|operator lhs IHl rhs IHr];
    cbn [Tree.mirror Tree.reverseLeaves Tree.postorder Tree.preorder];
    [reflexivity|].
  rewrite !rev_app_distr, IHl, IHr. reflexivity.
Qed.

Lemma chars_inj (a b : string) : chars a = chars b -> a = b.
Proof.
  intros H. rewrite <- (chars_of_string a), <- (chars_of_string b). now f_equal.
Qed.

Lemma prefix_render (e : Tree.expr) :
  Tree.renderable e = true ->
  containsTEMP (JS.reverseChars (Tree.render e)) = false ->
  infixToPrefix (Tree.render e)
  = JS.join " " (Tree.preorder (Tree.reverseLeaves e)).
Proof.
  intros Hr Htemp.
  rewrite infixToPrefix_as_tokens, (swapParens_map _ Htemp).
  assert (Hmirror : mapChars swapChar (JS.reverseChars (Tree.render e))
                    = Tree.render (Tree.mirror e)).
  { apply chars_inj. rewrite chars_mapChars, chars_reverse. now apply mirror_render. }
  rewrite Hmirror, (convert_render _ _ (mirror_renderable e Hr)).
  now rewrite rev_postorder_mirror.
Qed.

(** X19: for a tree of operands and the four operators whose fully
    parenthesised form, read backwards, does not contain "TEMP",
    [infixToPrefix] of that form is the prefix token sequence of the tree
    with every operand spelled backwards, joined by single spaces. *)
Theorem prefix_of_parenthesised (e : Tree.expr) :
  Tree.renderable e = true ->
  containsTEMP (JS.reverseChars (Tree.render e)) = false ->
  infixToPrefix (Tree.render e)
  = JS.join " " (Tree.preorder (Tree.reverseLeaves e)).
Proof. apply prefix_render. Qed.

Lemma prefix_of_parenthesised_witness :
  let e := Tree.Node "+" (Tree.Leaf "10") (Tree.Leaf "2") in
  Tree.renderable e = true /\
  containsTEMP (JS.reverseChars (Tree.render e)) = false /\
  infixToPrefix (Tree.render e)
  = JS.join " " (Tree.preorder (Tree.reverseLeaves e)).
Proof.
  do 2 (split; [reflexivity|]).
  apply (prefix_of_parenthesised
           (Tree.Node "+" (Tree.Leaf "10") (Tree.Leaf "2"))); reflexivity.
Defined.

(** X20: for a tree of numeric operands that read the same backwards
    (single digits, for instance) whose fully parenthesised form, read
    backwards, does not contain "TEMP", [evaluatePrefix] of
    [infixToPrefix] of that form is the value of the tree computed right
    operand first, and it returns a number exactly when [evaluatePostfix]
    of [infixToPostfix] returns that number. *)
Theorem parenthesised_evaluations_agree (e : Tree.expr) (v : float) :
  Tree.renderable e = true ->
  Tree.wellFormed e = true ->
  Tree.reverseLeaves e = e ->
  containsTEMP (JS.reverseChars (Tree.render e)) = false ->
  evaluatePrefix (infixToPrefix (Tree.render e)) = Tree.valueRightFirst e /\
  (evaluatePostfix (infixToPostfix (Tree.render e)) = Ok v <->
   evaluatePrefix (infixToPrefix (Tree.render e)) = Ok v).
Proof.
  intros Hr Hwf Hpal Htemp.
  assert (Hpre : evaluatePrefix (infixToPrefix (Tree.render e))
                 = Tree.valueRightFirst e).
  { rewrite (prefix_render e Hr Htemp), Hpal.
    now apply run_prefix_tree. }
  split; [exact Hpre|].
  rewrite Hpre, (postfix_value_render e Hr Hwf).
  apply value_orders_agree.
Qed.

Lemma parenthesised_evaluations_agree_witness :
  let e := (Tree.Node "*" (Tree.Node "+" (Tree.Leaf "2") (Tree.Leaf "3")) (Tree.Leaf "4")) in
  Tree.renderable e = true /\
  Tree.wellFormed e = true /\
  Tree.reverseLeaves e = e /\
  containsTEMP (JS.reverseChars (Tree.render e)) = false /\
  evaluatePrefix (infixToPrefix (Tree.render e)) = Tree.valueRightFirst e.
Proof.
  do 4 (split; [reflexivity|]).
  apply (parenthesised_evaluations_agree (Tree.Node "*" (Tree.Node "+" (Tree.Leaf "2") (Tree.Leaf "3")) (Tree.Leaf "4")) 20%float); reflexivity.
Defined.
